(** * KTF task scheduler (common/sched.c): a shallow embedding and its properties

    The scheduler keeps, per processor, a queue of tasks.  A task is created
    (NEW), prepared (READY), submitted with [schedule_task] (SCHEDULED), run
    by the processor's [run_tasks] loop (RUNNING, DONE) and then retired by
    [process_task_repeat], which either destroys it or hands it back to the
    loop.

    The C code is embedded as state-passing functions over a record [sched]
    holding the heap of task objects, the allocated stack pages, the
    per-processor queues and a trace of the observable events (state
    transitions, allocator calls, lock operations, console messages, calls of
    task functions).  Null pointers are [None]; a dereference of a null or
    dangling pointer stops the machine with [Fault], a failed [ASSERT] or
    [BUG()] with [Panic], and a busy-wait that nothing can end with [Hang]. *)

From stdpp Require Import gmap list strings.
From Stdlib Require Import ZArith.

Set Warnings "-clear-no-such-hyp".

(** ** Data model *)

(** The enumerators of [task_state_t], in the order of [task_state_names]. *)
Inductive task_state :=
| TASK_STATE_NEW
| TASK_STATE_READY
| TASK_STATE_SCHEDULED
| TASK_STATE_RUNNING
| TASK_STATE_DONE.

Global Instance task_state_eq_dec : EqDecision task_state.
Proof. solve_decision. Defined.

(** Modelled from the spec: sched.h, which declares the enumeration, is not
    among the sources; the spec orders the states
    NEW < READY < SCHEDULED < RUNNING < DONE, and [prepare_task] compares
    states with [<=].  [state_index] is the enumerator's value. *)
Definition state_index (s : task_state) : nat :=
  match s with
  | TASK_STATE_NEW => 0
  | TASK_STATE_READY => 1
  | TASK_STATE_SCHEDULED => 2
  | TASK_STATE_RUNNING => 3
  | TASK_STATE_DONE => 4
  end.

(** Width of [task_repeat_t] (printed with [%u]) and of the [atomic64_t]
    execution counter. *)
Definition REPEAT_MODULUS : Z := 2 ^ 32.
Definition COUNT_MODULUS : Z := 2 ^ 64.

(** [struct task].  Pointers to tasks, processors and pages are natural
    numbers; [None] is the null pointer.  [t_func] and [t_arg] are the
    function address and its argument. *)
Record task := mk_task {
  t_id : Z;
  t_type : Z;
  t_gid : Z;
  t_state : task_state;
  t_repeat : Z;
  t_exec_count : Z;
  t_cpu : option nat;
  t_stack : option nat;
  t_name : string;
  t_func : Z;
  t_arg : Z;
  t_result : Z
}.

(** The bring-up flags [run_tasks] touches through smp.h. *)
Inductive cpu_signal := WaitUnblocked | Unfinished | Blocked | Finished.

Global Instance cpu_signal_eq_dec : EqDecision cpu_signal.
Proof. solve_decision. Defined.

(** What the surroundings can see of a run. *)
Inductive event :=
| EvTransition (p : nat) (from to : task_state)   (* set_task_state *)
| EvRepeatSwitch (p : nat) (r : Z)                (* switch (task->repeat) *)
| EvKzalloc (r : option nat)
| EvKfree (p : nat)
| EvGetPage (r : option nat)
| EvPutPage (pg : nat)
| EvSpinLock (c : nat)
| EvSpinUnlock (c : nat)
| EvListAddTail (c p : nat)
| EvListUnlink (p : nat)
| EvWarning (p : nat)                             (* "Unable to schedule task" *)
| EvSchedulingMsg (c p : nat) (r : Z)             (* "Scheduling task" *)
| EvRunningMsg (c p : nat)                        (* "Running task" *)
| EvFinishedMsg (p c : nat) (result count : Z)    (* "... task finished" *)
| EvCall (p : nat) (f a : Z)                      (* the task function runs *)
| EvCpuSignal (c : nat) (what : cpu_signal).      (* smp bring-up flags *)

Global Instance event_eq_dec : EqDecision event.
Proof. solve_decision. Defined.

(** Machine state: [next_tid], the live task objects, the allocated stack
    pages, every processor's [task_queue], and the trace so far. *)
Record sched := mk_sched {
  next_tid : Z;
  heap : gmap nat task;
  pages : gset nat;
  queues : gmap nat (list nat);
  trace : list event
}.

Definition with_next_tid (n : Z) (s : sched) : sched :=
  mk_sched n (heap s) (pages s) (queues s) (trace s).
Definition with_heap (h : gmap nat task) (s : sched) : sched :=
  mk_sched (next_tid s) h (pages s) (queues s) (trace s).
Definition with_pages (pg : gset nat) (s : sched) : sched :=
  mk_sched (next_tid s) (heap s) pg (queues s) (trace s).
Definition with_queues (q : gmap nat (list nat)) (s : sched) : sched :=
  mk_sched (next_tid s) (heap s) (pages s) q (trace s).
Definition with_trace (tr : list event) (s : sched) : sched :=
  mk_sched (next_tid s) (heap s) (pages s) (queues s) tr.

Definition with_id (n : Z) (t : task) : task :=
  mk_task n (t_type t) (t_gid t) (t_state t) (t_repeat t) (t_exec_count t)
          (t_cpu t) (t_stack t) (t_name t) (t_func t) (t_arg t) (t_result t).
Definition with_state (x : task_state) (t : task) : task :=
  mk_task (t_id t) (t_type t) (t_gid t) x (t_repeat t) (t_exec_count t)
          (t_cpu t) (t_stack t) (t_name t) (t_func t) (t_arg t) (t_result t).
Definition with_repeat (r : Z) (t : task) : task :=
  mk_task (t_id t) (t_type t) (t_gid t) (t_state t) r (t_exec_count t)
          (t_cpu t) (t_stack t) (t_name t) (t_func t) (t_arg t) (t_result t).
Definition with_exec_count (n : Z) (t : task) : task :=
  mk_task (t_id t) (t_type t) (t_gid t) (t_state t) (t_repeat t) n
          (t_cpu t) (t_stack t) (t_name t) (t_func t) (t_arg t) (t_result t).
Definition with_cpu (c : option nat) (t : task) : task :=
  mk_task (t_id t) (t_type t) (t_gid t) (t_state t) (t_repeat t) (t_exec_count t)
          c (t_stack t) (t_name t) (t_func t) (t_arg t) (t_result t).
Definition with_stack (k : option nat) (t : task) : task :=
  mk_task (t_id t) (t_type t) (t_gid t) (t_state t) (t_repeat t) (t_exec_count t)
          (t_cpu t) k (t_name t) (t_func t) (t_arg t) (t_result t).
Definition with_result (r : Z) (t : task) : task :=
  mk_task (t_id t) (t_type t) (t_gid t) (t_state t) (t_repeat t) (t_exec_count t)
          (t_cpu t) (t_stack t) (t_name t) (t_func t) (t_arg t) r.
Definition with_gid (g : Z) (t : task) : task :=
  mk_task (t_id t) (t_type t) g (t_state t) (t_repeat t) (t_exec_count t)
          (t_cpu t) (t_stack t) (t_name t) (t_func t) (t_arg t) (t_result t).

(** The queue of processor [c]; a processor without an entry has an empty one. *)
Definition task_queue (s : sched) (c : nat) : list nat :=
  default [] (queues s !! c).

(** The state after [init_tasks()] on a machine without tasks. *)
Definition init_tasks : sched := mk_sched 0 ∅ ∅ ∅ [].

(** ** The machine monad *)

Inductive stop := Panic | Fault | Hang | OutOfFuel.

Inductive res (A : Type) :=
| Ok (a : A) (s : sched)
| Stop (why : stop) (s : sched).
Arguments Ok {A} a s.
Arguments Stop {A} why s.

Definition M (A : Type) : Type := sched -> res A.

Definition ret {A} (a : A) : M A := fun s => Ok a s.
Definition bind {A B} (m : M A) (k : A -> M B) : M B :=
  fun s => match m s with
           | Ok a s' => k a s'
           | Stop w s' => Stop w s'
           end.
Definition halt {A} (w : stop) : M A := fun s => Stop w s.

Notation "x <- m ;; k" := (bind m (fun x => k))
  (at level 100, m at level 99, right associativity).
Notation "m ;; k" := (bind m (fun _ => k))
  (at level 100, right associativity).

(** The state a run ended in, whether it returned or stopped. *)
Definition final {A} (r : res A) : sched :=
  match r with Ok _ s => s | Stop _ s => s end.

(** The events a computation adds to the trace when started in [s]. *)
Definition emitted {A} (m : M A) (s : sched) : list event :=
  drop (length (trace s)) (trace (final (m s))).

Definition emit (e : event) : M unit :=
  fun s => Ok tt (with_trace (trace s ++ [e]) s).
Definition load (p : nat) : M task :=
  fun s => match heap s !! p with
           | Some t => Ok t s
           | None => Stop Fault s
           end.
Definition store (p : nat) (t : task) : M unit :=
  fun s => Ok tt (with_heap (<[p := t]> (heap s)) s).
Definition ASSERT (c : bool) : M unit :=
  if c then ret tt else halt Panic.
Definition BUG {A} : M A := halt Panic.

Definition update (p : nat) (f : task -> task) : M unit :=
  t <- load p ;; store p (f t).

(** [next_tid++].  The width of [tid_t] is declared in sched.h, which is not
    among the sources; the counter is not wrapped here, and no property
    below depends on the ids. *)
Definition next_tid_post_inc : M Z :=
  fun s => Ok (next_tid s) (with_next_tid (next_tid s + 1) s).
Definition get_queue (c : nat) : M (list nat) :=
  fun s => Ok (task_queue s c) s.

(** [for (...; ...; ...) body] over the entries of a list, the way
    [list_for_each_entry_safe] walks them: the successor is fetched before
    the body runs, so the body may unlink the current entry. *)
Fixpoint list_for_each_entry_safe (body : nat -> M unit) (q : list nat) : M unit :=
  match q with
  | [] => ret tt
  | p :: q' => body p ;; list_for_each_entry_safe body q'
  end.

(** ** Collaborators: heap, page allocator, queue links

    [kzalloc] and [get_free_page_top] may fail; whether they do is an input
    of the model ([ok]).  A successful call hands out an address that is not
    in use. *)

Definition zero_task : task :=
  mk_task 0 0 0 TASK_STATE_NEW 0 0 None None EmptyString 0 0 0.

Definition kzalloc (ok : bool) : M (option nat) :=
  fun s =>
    if ok then
      let p := fresh (dom (heap s)) in
      Ok (Some p)
         (with_trace (trace s ++ [EvKzalloc (Some p)])
            (with_heap (<[p := zero_task]> (heap s)) s))
    else Ok None (with_trace (trace s ++ [EvKzalloc None]) s).

Definition kfree (p : nat) : M unit :=
  fun s =>
    match heap s !! p with
    | Some _ => Ok tt (with_trace (trace s ++ [EvKfree p])
                         (with_heap (delete p (heap s)) s))
    | None => Stop Fault s
    end.

(** Modelled from the spec: the page allocator of mm/vmm.h is a collaborator
    outside the sources ("page allocation/release for unprivileged task
    stacks (one page, top-aligned)"); allocation failure yields a null page. *)
Definition get_free_page_top (ok : bool) : M (option nat) :=
  fun s =>
    if ok then
      let pg := fresh (pages s) in
      Ok (Some pg)
         (with_trace (trace s ++ [EvGetPage (Some pg)])
            (with_pages ({[pg]} ∪ pages s) s))
    else Ok None (with_trace (trace s ++ [EvGetPage None]) s).

Definition put_page_top (pg : nat) : M unit :=
  fun s => Ok tt (with_trace (trace s ++ [EvPutPage pg])
                    (with_pages (pages s ∖ {[pg]}) s)).

(** [list_add_tail(&task->list, &cpu->task_queue)] *)
Definition list_add_tail (p c : nat) : M unit :=
  fun s => Ok tt (with_trace (trace s ++ [EvListAddTail c p])
                    (with_queues (<[c := task_queue s c ++ [p]]> (queues s)) s)).

(** [list_unlink(&task->list)]: the entry leaves the list it is linked in.
    [schedule_task] is the only writer of both [task->cpu] and the links,
    and [destroy_task] reads [task->cpu] first, so the unlink of a zeroed,
    never linked entry is not reached. *)
Definition list_unlink (p : nat) : M unit :=
  fun s => Ok tt (with_trace (trace s ++ [EvListUnlink p])
                    (with_queues (filter (fun q => q <> p) <$> queues s) s)).

Definition spin_lock (c : nat) : M unit := emit (EvSpinLock c).
Definition spin_unlock (c : nat) : M unit := emit (EvSpinUnlock c).

(** [task->cpu->...]: following the processor pointer of a task. *)
Definition task_cpu (t : task) : M nat :=
  match t_cpu t with
  | Some c => ret c
  | None => halt Fault
  end.

(** ** common/sched.c *)

(** The constants of sched.h and errno.h, and the collaborators of
    usermode.h and smp.h, none of which is among the sources.  The task
    function is called through its address: [call_func f a] is what [f(a)]
    returns, [enter_usermode f a stack] what the trampoline returns.  A task
    function is taken to return without touching the scheduler's state. *)
Class sched_env := {
  TASK_REPEAT_ONCE : Z;
  TASK_REPEAT_LOOP : Z;
  TASK_GROUP_ALL : Z;
  TASK_TYPE_USER : Z;
  ESUCCESS : Z;
  EINVAL : Z;
  EEXIST : Z;
  call_func : Z -> Z -> Z;
  enter_usermode : Z -> Z -> option nat -> Z;
  is_cpu_bsp : nat -> bool
}.

Section Scheduler.

Context `{env : sched_env}.

Definition set_task_state (p : nat) (state : task_state) : M unit :=
  t <- load p ;;
  emit (EvTransition p (t_state t) state) ;;
  store p (with_state state t).

Definition get_task_state (p : nat) : M task_state :=
  t <- load p ;; ret (t_state t).

(** Modelled from the spec: [set_task_once] is an inline helper of sched.h;
    it stores the ONCE policy ("ONCE (run once, then free)"). *)
Definition set_task_once (p : nat) : M unit :=
  update p (with_repeat TASK_REPEAT_ONCE).

(** Modelled from the spec: [set_task_repeat] and [set_task_group] are the
    configuration helpers of sched.h (osl.c calls the latter between
    [new_task] and [schedule_task]). *)
Definition set_task_repeat (p : nat) (value : Z) : M unit :=
  update p (with_repeat value).
Definition set_task_group (p : nat) (g : Z) : M unit :=
  update p (with_gid g).

Definition create_task (kzalloc_ok : bool) : M (option nat) :=
  task <- kzalloc kzalloc_ok ;;
  match task with
  | None => ret None
  | Some p =>
      store p zero_task ;;                                 (* memset *)
      id <- next_tid_post_inc ;;
      update p (with_id id) ;;
      update p (with_gid TASK_GROUP_ALL) ;;
      set_task_state p TASK_STATE_NEW ;;
      update p (with_exec_count 0) ;;
      set_task_once p ;;
      ret (Some p)
  end.

(* The caller should never use the parameter again after calling this function *)
Definition destroy_task (task : option nat) : M unit :=
  match task with
  | None => ret tt
  | Some p =>
      t <- load p ;;
      c <- task_cpu t ;;
      spin_lock c ;;
      list_unlink p ;;
      match t_stack t with
      | Some pg => put_page_top pg
      | None => ret tt
      end ;;
      spin_unlock c ;;
      kfree p
  end.

Definition prepare_task (task : option nat) (name : string) (func arg type : Z)
    (page_ok : bool) : M Z :=
  match task with
  | None => ret (- EINVAL)%Z
  | Some p =>
      st <- get_task_state p ;;
      ASSERT (state_index st <=? state_index TASK_STATE_READY) ;;
      update p (fun t =>
        mk_task (t_id t) type (t_gid t) (t_state t) (t_repeat t) (t_exec_count t)
                (t_cpu t) (t_stack t) name func arg (t_result t)) ;;
      (if (type =? TASK_TYPE_USER)%Z
       then stack <- get_free_page_top page_ok ;; update p (with_stack stack)
       else ret tt) ;;
      set_task_state p TASK_STATE_READY ;;
      ret ESUCCESS
  end.

(** Nothing else runs in this machine while a caller waits, so a state
    that differs from the awaited one differs for ever. *)
Definition wait_for_task_state (task : option nat) (state : task_state) : M unit :=
  match task with
  | None => ret tt
  | Some p =>
      st <- get_task_state p ;;
      if decide (st = state) then ret tt else halt Hang
  end.

Definition new_task (name : string) (func arg type : Z)
    (kzalloc_ok page_ok : bool) : M (option nat) :=
  task <- create_task kzalloc_ok ;;
  match task with
  | None => ret None
  | Some p =>
      rc <- prepare_task (Some p) name func arg type page_ok ;;
      if (rc =? ESUCCESS)%Z then ret (Some p)
      else destroy_task (Some p) ;; ret None
  end.

Definition schedule_task (task : option nat) (cpu : option nat) : M Z :=
  match task with
  | None => halt Panic                                      (* ASSERT(task) *)
  | Some p =>
      match cpu with
      | None =>
          load p ;;                                          (* task->name *)
          emit (EvWarning p) ;; ret (- EEXIST)%Z
      | Some c =>
          st <- get_task_state p ;;
          ASSERT (bool_decide (st = TASK_STATE_READY)) ;;
          t <- load p ;;
          emit (EvSchedulingMsg c p (t_repeat t)) ;;
          spin_lock c ;;
          list_add_tail p c ;;
          update p (with_cpu (Some c)) ;;
          set_task_state p TASK_STATE_SCHEDULED ;;
          spin_unlock c ;;
          ret 0%Z
      end
  end.

(** [atomic64_inc_return(&task->exec_count)] *)
Definition atomic64_inc_return (p : nat) : M Z :=
  t <- load p ;;
  let n := ((t_exec_count t + 1) mod COUNT_MODULUS)%Z in
  store p (with_exec_count n t) ;;
  ret n.

Definition run_task (task : option nat) : M unit :=
  match task with
  | None => ret tt
  | Some p =>
      wait_for_task_state (Some p) TASK_STATE_SCHEDULED ;;
      n <- atomic64_inc_return p ;;
      (if (n =? 0)%Z
       then t <- load p ;; c <- task_cpu t ;; emit (EvRunningMsg c p)
       else ret tt) ;;
      set_task_state p TASK_STATE_RUNNING ;;
      t <- load p ;;
      emit (EvCall p (t_func t) (t_arg t)) ;;
      (if (t_type t =? TASK_TYPE_USER)%Z
       then update p (with_result (enter_usermode (t_func t) (t_arg t) (t_stack t)))
       else update p (with_result (call_func (t_func t) (t_arg t)))) ;;
      set_task_state p TASK_STATE_DONE
  end.

Definition process_task_repeat (p : nat) : M unit :=
  t <- load p ;;
  emit (EvRepeatSwitch p (t_repeat t)) ;;
  if (t_repeat t =? TASK_REPEAT_ONCE)%Z then
    c <- task_cpu t ;;
    emit (EvFinishedMsg p c (t_result t) (t_exec_count t)) ;;
    destroy_task (Some p)
  else if (t_repeat t =? TASK_REPEAT_LOOP)%Z then
    set_task_state p TASK_STATE_SCHEDULED
  else
    update p (with_repeat ((t_repeat t - 1) mod REPEAT_MODULUS)%Z) ;;
    set_task_state p TASK_STATE_SCHEDULED.

(** The body of the queue walk in [run_tasks]. *)
Definition run_tasks_body (p : nat) : M unit :=
  t <- load p ;;
  match t_state t with
  | TASK_STATE_DONE => process_task_repeat p
  | TASK_STATE_SCHEDULED => run_task (Some p)
  | _ => BUG
  end.

(** [do { walk } while (!list_is_empty(&cpu->task_queue))], at most [fuel]
    walks. *)
Fixpoint run_tasks_loop (fuel : nat) (cpu : nat) : M unit :=
  match fuel with
  | O => halt OutOfFuel
  | S fuel' =>
      q <- get_queue cpu ;;
      list_for_each_entry_safe run_tasks_body q ;;
      q' <- get_queue cpu ;;
      match q' with
      | [] => ret tt
      | _ :: _ => run_tasks_loop fuel' cpu
      end
  end.

Definition run_tasks (fuel : nat) (cpu : nat) : M unit :=
  (if is_cpu_bsp cpu then ret tt else emit (EvCpuSignal cpu WaitUnblocked)) ;;
  emit (EvCpuSignal cpu Unfinished) ;;
  run_tasks_loop fuel cpu ;;
  (if is_cpu_bsp cpu then ret tt else emit (EvCpuSignal cpu Blocked)) ;;
  emit (EvCpuSignal cpu Finished).

(** ** Outcomes of the operations *)

(** The task object [create_task] leaves behind. *)
Definition created_task (id : Z) : task :=
  mk_task id 0 TASK_GROUP_ALL TASK_STATE_NEW TASK_REPEAT_ONCE 0
          None None EmptyString 0 0 0.

(** The task object after [prepare_task]. *)
Definition prepared (t : task) (name : string) (func arg type : Z)
    (stack : option nat) : task :=
  mk_task (t_id t) type (t_gid t) TASK_STATE_READY (t_repeat t) (t_exec_count t)
          (t_cpu t) stack name func arg (t_result t).

(** What [new_task] builds when the task object could be allocated. *)
Definition new_task_stack (s : sched) (type : Z) (page_ok : bool) : option nat :=
  if (type =? TASK_TYPE_USER)%Z
  then (if page_ok then Some (fresh (pages s)) else None)
  else None.

Definition new_task_state (s : sched) (name : string) (func arg type : Z)
    (page_ok : bool) : sched :=
  let p := fresh (dom (heap s)) in
  mk_sched (next_tid s + 1)
    (<[p := prepared (created_task (next_tid s)) name func arg type
                     (new_task_stack s type page_ok)]> (heap s))
    (if (type =? TASK_TYPE_USER)%Z
     then (if page_ok then {[fresh (pages s)]} ∪ pages s else pages s)
     else pages s)
    (queues s)
    (trace s ++ [EvKzalloc (Some p); EvTransition p TASK_STATE_NEW TASK_STATE_NEW]
             ++ (if (type =? TASK_TYPE_USER)%Z
                 then [EvGetPage (new_task_stack s type page_ok)] else [])
             ++ [EvTransition p TASK_STATE_NEW TASK_STATE_READY]).

(** The value [run_task] stores in [task->result]. *)
Definition task_result (t : task) : Z :=
  if (t_type t =? TASK_TYPE_USER)%Z
  then enter_usermode (t_func t) (t_arg t) (t_stack t)
  else call_func (t_func t) (t_arg t).

Definition inc_count (t : task) : Z :=
  ((t_exec_count t + 1) mod COUNT_MODULUS)%Z.

(** The task object after one execution. *)
Definition ran (t : task) : task :=
  mk_task (t_id t) (t_type t) (t_gid t) TASK_STATE_DONE (t_repeat t) (inc_count t)
          (t_cpu t) (t_stack t) (t_name t) (t_func t) (t_arg t) (task_result t).

Definition run_events (p c : nat) (t : task) : list event :=
  (if (inc_count t =? 0)%Z then [EvRunningMsg c p] else [])
    ++ [EvTransition p TASK_STATE_SCHEDULED TASK_STATE_RUNNING;
        EvCall p (t_func t) (t_arg t);
        EvTransition p TASK_STATE_RUNNING TASK_STATE_DONE].

(** The task object handed back to the run loop by [process_task_repeat]. *)
Definition recycled (t : task) : task :=
  with_state TASK_STATE_SCHEDULED
    (if (t_repeat t =? TASK_REPEAT_LOOP)%Z then t
     else with_repeat ((t_repeat t - 1) mod REPEAT_MODULUS)%Z t).

Definition destroy_events (p c : nat) (t : task) : list event :=
  [EvSpinLock c; EvListUnlink p]
    ++ match t_stack t with Some pg => [EvPutPage pg] | None => [] end
    ++ [EvSpinUnlock c; EvKfree p].

Definition destroyed (s : sched) (p : nat) (t : task) (new : list event) : sched :=
  mk_sched (next_tid s) (delete p (heap s))
    (match t_stack t with Some pg => pages s ∖ {[pg]} | None => pages s end)
    (filter (fun q => q <> p) <$> queues s)
    (trace s ++ new).

(** ** Scenarios *)

(** A task is constructed, submitted to processor [c] and run for the
    first time. *)
Definition first_run (name : string) (func arg type : Z)
    (kzalloc_ok page_ok : bool) (c : nat) : M unit :=
  task <- new_task name func arg type kzalloc_ok page_ok ;;
  schedule_task task (Some c) ;;
  run_task task.

(** A task is constructed, submitted to processor [c], run once and handed
    to the retirement of the run loop. *)
Definition run_and_retire (name : string) (func arg type : Z)
    (kzalloc_ok page_ok : bool) (c : nat) : M unit :=
  task <- new_task name func arg type kzalloc_ok page_ok ;;
  schedule_task task (Some c) ;;
  run_task task ;;
  match task with
  | Some p => run_tasks_body p
  | None => ret tt
  end.

(** ** One walk of the run loop over a queue *)

(** What the run loop needs of a queue entry: a live task object that
    belongs to the processor and is SCHEDULED or DONE. *)
Definition queued_ok (s : sched) (c p : nat) : Prop :=
  match heap s !! p with
  | Some t => t_cpu t = Some c /\
              (t_state t = TASK_STATE_SCHEDULED \/ t_state t = TASK_STATE_DONE)
  | None => False
  end.

Global Instance queued_ok_dec s c p : Decision (queued_ok s c p).
Proof. unfold queued_ok. destruct (heap s !! p); apply _. Defined.

Definition queue_ok (s : sched) (c : nat) : Prop :=
  NoDup (task_queue s c) /\ Forall (queued_ok s c) (task_queue s c).

Global Instance queue_ok_dec s c : Decision (queue_ok s c).
Proof. unfold queue_ok. apply _. Defined.

(** The task object after the loop body handled it; [None] when the body
    destroyed it. *)
Definition task_after (t : task) : option task :=
  match t_state t with
  | TASK_STATE_SCHEDULED => Some (ran t)
  | TASK_STATE_DONE =>
      if (t_repeat t =? TASK_REPEAT_ONCE)%Z then None else Some (recycled t)
  | _ => Some t
  end.

Definition body_events (p c : nat) (t : task) : list event :=
  match t_state t with
  | TASK_STATE_SCHEDULED => run_events p c t
  | TASK_STATE_DONE =>
      if (t_repeat t =? TASK_REPEAT_ONCE)%Z
      then [EvRepeatSwitch p TASK_REPEAT_ONCE;
            EvFinishedMsg p c (t_result t) (t_exec_count t)]
             ++ destroy_events p c t
      else [EvRepeatSwitch p (t_repeat t);
            EvTransition p TASK_STATE_DONE TASK_STATE_SCHEDULED]
  | _ => []
  end.

Definition body_state (s : sched) (p c : nat) (t : task) : sched :=
  match task_after t with
  | Some t' => mk_sched (next_tid s) (<[p := t']> (heap s)) (pages s) (queues s)
                        (trace s ++ body_events p c t)
  | None => destroyed s p t (body_events p c t)
  end.

Definition walk_events (s : sched) (c : nat) (l : list nat) : list event :=
  flat_map (fun x => match heap s !! x with
                     | Some t => body_events x c t
                     | None => []
                     end) l.

(** The state after the loop body has handled the entries [l], in terms
    of the state [s] before. *)
Definition walk_post (s : sched) (c : nat) (l : list nat) (s' : sched) : Prop :=
  queue_ok s' c /\
  (forall x, heap s' !! x =
             if decide (x ∈ l) then heap s !! x ≫= task_after else heap s !! x) /\
  task_queue s' c = filter (fun x => is_Some (heap s' !! x)) (task_queue s c) /\
  trace s' = trace s ++ walk_events s c l /\
  pages s' ⊆ pages s /\
  (forall x t pg, x ∈ l -> heap s !! x = Some t -> task_after t = None ->
                  t_stack t = Some pg -> pg ∉ pages s').

(** ** Counting events *)

Definition is_call (p : nat) (e : event) : bool :=
  match e with EvCall q _ _ => bool_decide (q = p) | _ => false end.
Definition is_kfree (p : nat) (e : event) : bool :=
  match e with EvKfree q => bool_decide (q = p) | _ => false end.
Definition is_put_page (pg : nat) (e : event) : bool :=
  match e with EvPutPage q => bool_decide (q = pg) | _ => false end.

Definition count (f : event -> bool) (tr : list event) : nat :=
  length (List.filter f tr).

(** ** The run loop *)

(** A run that returned or is still looping when the fuel is used up:
    neither an assertion nor a fault nor a hang stopped it. *)
Definition good {A} (r : res A) : Prop :=
  match r with
  | Ok _ _ => True
  | Stop OutOfFuel _ => True
  | Stop _ _ => False
  end.

(** [countdown k r]: starting from the repeat value [r], the decrement of
    [process_task_repeat] is taken [k] times, on values that are neither
    sentinel, and then the value is ONCE. *)
Fixpoint countdown (k : nat) (r : Z) : Prop :=
  match k with
  | O => r = TASK_REPEAT_ONCE
  | S k' => r <> TASK_REPEAT_ONCE /\ r <> TASK_REPEAT_LOOP /\
            countdown k' ((r - 1) mod REPEAT_MODULUS)%Z
  end.

(** What the run loop has done with a task that was SCHEDULED with [k]
    decrements ahead of it. *)
Definition lifecycle_post (s : sched) (c p : nat) (t : task) (k : nat)
    (r : res unit) : Prop :=
  good r /\ queue_ok (final r) c /\
  heap (final r) !! p = None /\ (p ∉ task_queue (final r) c) /\
  pages (final r) ⊆ pages s /\
  (forall pg, t_stack t = Some pg -> pg ∉ pages (final r)) /\
  exists new,
    trace (final r) = trace s ++ new /\
    count (is_call p) new = S k /\
    count (is_kfree p) new = 1 /\
    (forall pg, t_stack t = Some pg -> EvPutPage pg ∈ new) /\
    (EvFinishedMsg p c (task_result t)
       ((t_exec_count t + Z.of_nat (S k)) mod COUNT_MODULUS)%Z) ∈ new.

(** [run_tasks] is the loop between the bring-up signals. *)
Definition signals_before (c : nat) : list event :=
  (if is_cpu_bsp c then [] else [EvCpuSignal c WaitUnblocked])
    ++ [EvCpuSignal c Unfinished].
Definition signals_after (c : nat) : list event :=
  (if is_cpu_bsp c then [] else [EvCpuSignal c Blocked])
    ++ [EvCpuSignal c Finished].

(** A task is constructed, submitted to processor [c], and the
    processor's run loop is started. *)
Definition construct_submit_run (name : string) (func arg type : Z)
    (kzalloc_ok page_ok : bool) (c fuel : nat) : M unit :=
  task <- new_task name func arg type kzalloc_ok page_ok ;;
  schedule_task task (Some c) ;;
  run_tasks fuel c.

(** The state after a successful [new_task] followed by [schedule_task]. *)
Definition submitted_task (s : sched) (name : string) (func arg type : Z)
    (page_ok : bool) (c : nat) : task :=
  with_state TASK_STATE_SCHEDULED
    (with_cpu (Some c)
       (prepared (created_task (next_tid s)) name func arg type
                 (new_task_stack s type page_ok))).

Definition submitted_state (s : sched) (name : string) (func arg type : Z)
    (page_ok : bool) (c : nat) : sched :=
  let p := fresh (dom (heap s)) in
  let s1 := new_task_state s name func arg type page_ok in
  mk_sched (next_tid s1)
    (<[p := submitted_task s name func arg type page_ok c]> (heap s1))
    (pages s1)
    (<[c := task_queue s c ++ [p]]> (queues s))
    (trace s1 ++ [EvSchedulingMsg c p TASK_REPEAT_ONCE; EvSpinLock c;
                  EvListAddTail c p;
                  EvTransition p TASK_STATE_READY TASK_STATE_SCHEDULED;
                  EvSpinUnlock c]).

(** ** The state machine *)

(** The operations of the scheduler.  [OpRunTasksBody] is one turn of the
    queue walk of [run_tasks] on an entry: it runs a SCHEDULED task and
    retires a DONE one. *)
Inductive sched_op :=
| OpCreate (kzalloc_ok : bool)
| OpPrepare (task : option nat) (name : string) (func arg type : Z) (page_ok : bool)
| OpNew (name : string) (func arg type : Z) (kzalloc_ok page_ok : bool)
| OpSetRepeat (p : nat) (value : Z)
| OpSetGroup (p : nat) (g : Z)
| OpSchedule (task cpu : option nat)
| OpRunTask (task : option nat)
| OpRunTasksBody (p : nat)
| OpRunTasks (fuel cpu : nat)
| OpDestroy (task : option nat).

Definition exec_op (o : sched_op) : M unit :=
  match o with
  | OpCreate ok => create_task ok ;; ret tt
  | OpPrepare task name func arg type ok =>
      prepare_task task name func arg type ok ;; ret tt
  | OpNew name func arg type kok pok =>
      new_task name func arg type kok pok ;; ret tt
  | OpSetRepeat p v => set_task_repeat p v
  | OpSetGroup p g => set_task_group p g
  | OpSchedule task cpu => schedule_task task cpu ;; ret tt
  | OpRunTask task => run_task task
  | OpRunTasksBody p => run_tasks_body p
  | OpRunTasks fuel cpu => run_tasks fuel cpu
  | OpDestroy task => destroy_task task
  end.

(** The operations are applied one after the other, each to the state the
    previous one ended in. *)
Definition exec_ops (ops : list sched_op) (s : sched) : sched :=
  foldl (fun s o => final (exec_op o s)) s ops.

(** The operations open to the callers of sched.h: construction,
    configuration, submission and the run loop. *)
Definition is_api (o : sched_op) : bool :=
  match o with
  | OpNew _ _ _ _ _ _ | OpSetRepeat _ _ | OpSetGroup _ _ | OpSchedule _ _
  | OpRunTasks _ _ => true
  | _ => false
  end.

(** A write of the state that is no change or a step to the next state. *)
Definition plain_event (e : event) : Prop :=
  match e with
  | EvTransition _ a b => a = b \/ state_index b = S (state_index a)
  | _ => True
  end.

(** Traces in which every write of a task state is plain, except for
    DONE -> SCHEDULED directly after a [switch] on a repeat value other
    than ONCE. *)
Inductive legal_trace : list event -> Prop :=
| legal_nil : legal_trace []
| legal_cons e tr :
    plain_event e -> legal_trace tr -> legal_trace (e :: tr)
| legal_recycle p r tr :
    r <> TASK_REPEAT_ONCE -> legal_trace tr ->
    legal_trace (EvRepeatSwitch p r
                   :: EvTransition p TASK_STATE_DONE TASK_STATE_SCHEDULED :: tr).

Definition emits_legal {A} (m : M A) : Prop :=
  forall s, exists new, trace (final (m s)) = trace s ++ new /\ legal_trace new.

(** ** Waiting for a group

    [wait_for_task_group] polls tasks that another processor's run loop is
    working on, so the states it reads are not those of a state it owns.
    The reads ([ACCESS_ONCE(task->state)]) are modelled by an observation
    [obs]: [obs n p] is the state that read number [n] returns for task
    [p].  The queue links and the group tags are read from [s]. *)

(** [wait_for_task_state] under observation: the clock after the read that
    returned [state]; [None] when [fuel] reads did not suffice. *)
Fixpoint wait_for_task_state_obs (obs : nat -> nat -> task_state) (fuel : nat)
    (p : nat) (state : task_state) (clock : nat) : option nat :=
  match fuel with
  | O => None
  | S fuel' =>
      if decide (obs clock p = state) then Some (S clock)
      else wait_for_task_state_obs obs fuel' p state (S clock)
  end.

(** The test that lets an entry through:
    [!(group != TASK_GROUP_ALL && task->gid != group)]. *)
Definition in_group (s : sched) (group : Z) (p : nat) : bool :=
  match heap s !! p with
  | Some t => negb (negb (group =? TASK_GROUP_ALL)%Z && negb (t_gid t =? group)%Z)
  | None => false
  end.

(** One walk over the queue.  [seen] collects, for every entry that was
    let through, the state its first read in this walk returned. *)
Fixpoint wait_scan (obs : nat -> nat -> task_state) (fuel : nat) (s : sched)
    (group : Z) (q : list nat) (clock : nat) (busy : bool)
    (seen : list (nat * task_state)) : option (nat * bool * list (nat * task_state)) :=
  match q with
  | [] => Some (clock, busy, seen)
  | p :: q' =>
      match heap s !! p with
      | None => None
      | Some _ =>
          if in_group s group p then
            let st := obs clock p in
            if decide (st = TASK_STATE_DONE)
            then wait_scan obs fuel s group q' (S clock) busy (seen ++ [(p, st)])
            else
              match wait_for_task_state_obs obs fuel p TASK_STATE_DONE (S clock) with
              | None => None
              | Some clock' =>
                  wait_scan obs fuel s group q' clock' true (seen ++ [(p, st)])
              end
          else wait_scan obs fuel s group q' clock busy seen
      end
  end.

(** [do { busy = false; walk; cpu_relax(); } while (busy)], at most [fuel]
    walks; the result is the clock at the return and what each walk saw. *)
Fixpoint wait_for_task_group (obs : nat -> nat -> task_state) (fuel : nat)
    (s : sched) (cpu : nat) (group : Z) (clock : nat)
    : option (nat * list (list (nat * task_state))) :=
  match fuel with
  | O => None
  | S fuel' =>
      match wait_scan obs (S fuel') s group (task_queue s cpu) clock false [] with
      | None => None
      | Some (clock', busy, seen) =>
          if busy then
            match wait_for_task_group obs fuel' s cpu group clock' with
            | None => None
            | Some (clock'', log) => Some (clock'', seen :: log)
            end
          else Some (clock', [seen])
      end
  end.

Definition all_done (pass : list (nat * task_state)) : bool :=
  forallb (fun e => bool_decide (e.2 = TASK_STATE_DONE)) pass.

(** ** Lookup by name *)

(** Modelled from the spec: [string_equal] of string.h is not among the
    sources; names are compared as strings ("returns the first task with a
    matching name"). *)
Definition string_equal (a b : string) : bool := String.eqb a b.

(** [list_for_each_entry] with the early [return task]. *)
Fixpoint get_task_by_name_walk (name : string) (q : list nat) : M (option nat) :=
  match q with
  | [] => ret None
  | p :: q' =>
      t <- load p ;;
      if string_equal (t_name t) name then ret (Some p)
      else get_task_by_name_walk name q'
  end.

Definition get_task_by_name (cpu : nat) (name : string) : M (option nat) :=
  q <- get_queue cpu ;;
  get_task_by_name_walk name q.

(** The name stored in a task object; a dangling entry has none. *)
Definition name_of (s : sched) (p : nat) : option string :=
  t_name <$> heap s !! p.

(** ** Order of execution *)

(** The tasks whose functions a trace shows as called, in order. *)
Definition called (tr : list event) : list nat :=
  omap (fun e => match e with EvCall p _ _ => Some p | _ => None end) tr.

Definition is_scheduled (s : sched) (p : nat) : bool :=
  match heap s !! p with
  | Some t => bool_decide (t_state t = TASK_STATE_SCHEDULED)
  | None => false
  end.

(** ** The two halves of a submission

    The locked section of [schedule_task] cut after [list_add_tail]: the
    task is in the queue, [task->cpu] and the state SCHEDULED are still to
    be written.  [run_tasks] walks the queue without taking the lock, so a
    run loop on the target processor can see the state in between. *)
Definition schedule_task_link (p c : nat) : M unit :=
  st <- get_task_state p ;;
  ASSERT (bool_decide (st = TASK_STATE_READY)) ;;
  t <- load p ;;
  emit (EvSchedulingMsg c p (t_repeat t)) ;;
  spin_lock c ;;
  list_add_tail p c.

Definition schedule_task_publish (p c : nat) : M Z :=
  update p (with_cpu (Some c)) ;;
  set_task_state p TASK_STATE_SCHEDULED ;;
  spin_unlock c ;;
  ret 0%Z.

End Scheduler.

(** ** A sample configuration

    The theorems above hold for every [sched_env].  To run the model a
    configuration is fixed here: ONCE is 0 and LOOP the largest value of
    [task_repeat_t], the wildcard group is 0, and a task function returns
    the sum of its address and its argument. *)

Definition sample_env : sched_env := {|
  TASK_REPEAT_ONCE := 0;
  TASK_REPEAT_LOOP := 2 ^ 32 - 1;
  TASK_GROUP_ALL := 0;
  TASK_TYPE_USER := 1;
  ESUCCESS := 0;
  EINVAL := 22;
  EEXIST := 17;
  call_func := fun f a => (f + a)%Z;
  enter_usermode := fun f a _ => (f + a)%Z;
  is_cpu_bsp := fun c => Nat.eqb c 0
|}.

(** A user task at address 0, READY after [new_task]. *)
Definition sample_ready : sched :=
  final (@new_task sample_env "t" 5 7 1 true true init_tasks).

(** The same task submitted to processor 0, with the default ONCE policy. *)
Definition sample_once : sched :=
  final (@schedule_task sample_env (Some 0) (Some 0) sample_ready).

(** The same task with a repeat count of 3. *)
Definition sample_repeat3 : sched :=
  final (@set_task_repeat 0 3 sample_once).

(** A task whose counter is one increment away from wrapping to zero. *)
Definition sample_wrapping : sched :=
  final (update 0 (with_exec_count (COUNT_MODULUS - 1)) sample_once).

Definition sample_task (s : sched) : task :=
  default zero_task (heap s !! 0).

(** An observation under which task 0 is seen RUNNING twice, then DONE. *)
Definition sample_obs (n p : nat) : task_state :=
  if n <? 2 then TASK_STATE_RUNNING else TASK_STATE_DONE.

Definition sample_ops : list sched_op :=
  [OpNew "t" 5 7 1 true true; OpSchedule (Some 0) (Some 0); OpSetRepeat 0 3;
   OpRunTasks 8 0].

(** A second task, a kernel task named "u", submitted behind the first. *)
Definition sample_two : sched :=
  final ((task <- @new_task sample_env "u" 6 8 0 true true ;;
          @schedule_task sample_env task (Some 0)) sample_once).

(** The two tasks, the first with a repeat count of 3. *)
Definition sample_mixed : sched :=
  final (@set_task_repeat 0 3 sample_two).

(** The first task with the LOOP policy. *)
Definition sample_loop : sched :=
  final (@set_task_repeat 0 (@TASK_REPEAT_LOOP sample_env) sample_once).

(** An observation under which nothing ever finishes. *)
Definition sample_obs_busy (n p : nat) : task_state := TASK_STATE_RUNNING.

(** Sentinel values under which a repeat value is the number of
    executions, the reading of the message "%u times" that
    [task_repeat_string] prints for it: ONCE is 1 and LOOP is 0. *)
Definition times_env : sched_env := {|
  TASK_REPEAT_ONCE := 1;
  TASK_REPEAT_LOOP := 0;
  TASK_GROUP_ALL := 0;
  TASK_TYPE_USER := 1;
  ESUCCESS := 0;
  EINVAL := 22;
  EEXIST := 17;
  call_func := fun f a => (f + a)%Z;
  enter_usermode := fun f a _ => (f + a)%Z;
  is_cpu_bsp := fun c => Nat.eqb c 0
|}.

(** Sentinel values with LOOP among the small counts: ONCE is 0 and LOOP
    is 2. *)
Definition low_loop_env : sched_env := {|
  TASK_REPEAT_ONCE := 0;
  TASK_REPEAT_LOOP := 2;
  TASK_GROUP_ALL := 0;
  TASK_TYPE_USER := 1;
  ESUCCESS := 0;
  EINVAL := 22;
  EEXIST := 17;
  call_func := fun f a => (f + a)%Z;
  enter_usermode := fun f a _ => (f + a)%Z;
  is_cpu_bsp := fun c => Nat.eqb c 0
|}.

(** The user task "t" constructed, submitted to processor 0 and given the
    finite count 3, under each of the two. *)
Definition sample_times3 : sched :=
  final (@set_task_repeat 0 3
    (final (@schedule_task times_env (Some 0) (Some 0)
      (final (@new_task times_env "t" 5 7 1 true true init_tasks))))).

Definition sample_low_loop3 : sched :=
  final (@set_task_repeat 0 3
    (final (@schedule_task low_loop_env (Some 0) (Some 0)
      (final (@new_task low_loop_env "t" 5 7 1 true true init_tasks))))).

(** The two submitted tasks and a third, READY and not submitted; a
    fourth in the queue of processor 1. *)
Definition sample_three : sched :=
  final ((@new_task sample_env "v" 9 9 0 true true ;;
          task <- @new_task sample_env "w" 4 4 0 true true ;;
          @schedule_task sample_env task (Some 1)) sample_two).

(** The two submitted tasks and a third, READY, about to be submitted. *)
Definition sample_pending : sched :=
  final (@new_task sample_env "v" 9 9 0 true true sample_two).

(** * Properties *)

Section Properties.

Context `{env : sched_env}.

(** ** Evaluation lemmas *)

Ltac munfold :=
  unfold create_task, destroy_task, prepare_task, wait_for_task_state, new_task,
    schedule_task, atomic64_inc_return, run_task, process_task_repeat,
    run_tasks_body, set_task_state, get_task_state, set_task_once,
    set_task_repeat, set_task_group, task_cpu, spin_lock, spin_unlock,
    list_add_tail, list_unlink, put_page_top, get_free_page_top, kfree, kzalloc,
    next_tid_post_inc, get_queue, update, load, store, emit, ASSERT, BUG, halt,
    bind, ret, with_next_tid, with_heap, with_pages, with_queues, with_trace in *.

Ltac mred :=
  repeat (munfold; cbn in *;
          rewrite ?lookup_insert_eq, ?insert_insert_eq, <- ?app_assoc;
          repeat (rewrite decide_True by reflexivity);
          repeat (rewrite bool_decide_eq_true_2 by reflexivity);
          cbn in * ).

Ltac mrun H := repeat (progress (mred; rewrite ?H)).

Lemma create_task_fail s :
  create_task false s = Ok None (with_trace (trace s ++ [EvKzalloc None]) s).
Proof. reflexivity. Qed.

Lemma create_task_ok s :
  create_task true s =
    Ok (Some (fresh (dom (heap s))))
       (mk_sched (next_tid s + 1)
                 (<[fresh (dom (heap s)) := created_task (next_tid s)]> (heap s))
                 (pages s) (queues s)
                 (trace s ++ [EvKzalloc (Some (fresh (dom (heap s))));
                              EvTransition (fresh (dom (heap s)))
                                           TASK_STATE_NEW TASK_STATE_NEW])).
Proof. destruct s as [n h pg q tr]. mred. reflexivity. Qed.

Lemma prepare_task_user s p t name func arg page_ok :
  heap s !! p = Some t ->
  state_index (t_state t) <= state_index TASK_STATE_READY ->
  prepare_task (Some p) name func arg TASK_TYPE_USER page_ok s =
    Ok ESUCCESS
       (if page_ok then
          mk_sched (next_tid s)
            (<[p := prepared t name func arg TASK_TYPE_USER (Some (fresh (pages s)))]>
               (heap s))
            ({[fresh (pages s)]} ∪ pages s) (queues s)
            (trace s ++ [EvGetPage (Some (fresh (pages s)));
                         EvTransition p (t_state t) TASK_STATE_READY])
        else
          mk_sched (next_tid s)
            (<[p := prepared t name func arg TASK_TYPE_USER None]> (heap s))
            (pages s) (queues s)
            (trace s ++ [EvGetPage None;
                         EvTransition p (t_state t) TASK_STATE_READY])).
Proof.
  destruct s as [n h pg q tr]; cbn; intros Hp Hst.
  unfold prepare_task, get_task_state, bind, load; cbn. rewrite Hp; cbn.
  apply Nat.leb_le in Hst. rewrite Hst. rewrite Z.eqb_refl.
  destruct page_ok; mred; rewrite Hp; mred; reflexivity.
Qed.

Lemma prepare_task_kernel s p t name func arg type page_ok :
  heap s !! p = Some t ->
  state_index (t_state t) <= state_index TASK_STATE_READY ->
  type <> TASK_TYPE_USER ->
  prepare_task (Some p) name func arg type page_ok s =
    Ok ESUCCESS
       (mk_sched (next_tid s)
          (<[p := prepared t name func arg type (t_stack t)]> (heap s))
          (pages s) (queues s)
          (trace s ++ [EvTransition p (t_state t) TASK_STATE_READY])).
Proof.
  destruct s as [n h pg q tr]; cbn; intros Hp Hst Hty.
  unfold prepare_task, get_task_state, bind, load; cbn. rewrite Hp; cbn.
  apply Nat.leb_le in Hst. rewrite Hst.
  apply Z.eqb_neq in Hty. rewrite Hty.
  mred; rewrite Hp; mred; reflexivity.
Qed.

Lemma prepare_task_assert s p t name func arg type page_ok :
  heap s !! p = Some t ->
  state_index TASK_STATE_READY < state_index (t_state t) ->
  prepare_task (Some p) name func arg type page_ok s = Stop Panic s.
Proof.
  destruct s as [n h pg q tr]; cbn; intros Hp Hst.
  unfold prepare_task, get_task_state, bind, load; cbn. rewrite Hp; cbn.
  apply Nat.leb_gt in Hst. rewrite Hst. reflexivity.
Qed.

Lemma new_task_fail s name func arg type page_ok :
  new_task name func arg type false page_ok s =
    Ok None (with_trace (trace s ++ [EvKzalloc None]) s).
Proof. reflexivity. Qed.

Lemma new_task_ok s name func arg type page_ok :
  new_task name func arg type true page_ok s =
    Ok (Some (fresh (dom (heap s)))) (new_task_state s name func arg type page_ok).
Proof.
  unfold new_task, bind at 1. rewrite create_task_ok.
  set (p := fresh (dom (heap s))). set (s1 := mk_sched _ _ _ _ _).
  assert (Hp : heap s1 !! p = Some (created_task (next_tid s)))
    by apply lookup_insert_eq.
  unfold bind, new_task_state, new_task_stack. fold p.
  destruct (Z.eqb_spec type TASK_TYPE_USER) as [->|Hty].
  - rewrite (prepare_task_user _ _ _ _ _ _ _ Hp) by (cbn; lia).
    rewrite Z.eqb_refl. unfold ret, s1; cbn.
    destruct page_ok; rewrite insert_insert_eq, <- app_assoc; reflexivity.
  - rewrite (prepare_task_kernel _ _ _ _ _ _ _ _ Hp) by (cbn; lia || done).
    rewrite Z.eqb_refl. unfold ret, s1; cbn.
    rewrite insert_insert_eq, <- app_assoc; reflexivity.
Qed.

Lemma schedule_task_no_cpu s p t :
  heap s !! p = Some t ->
  schedule_task (Some p) None s =
    Ok (- EEXIST)%Z (with_trace (trace s ++ [EvWarning p]) s).
Proof.
  intros Hp. unfold schedule_task, bind, load. rewrite Hp. reflexivity.
Qed.

Lemma schedule_task_ok s p t c :
  heap s !! p = Some t ->
  t_state t = TASK_STATE_READY ->
  schedule_task (Some p) (Some c) s =
    Ok 0%Z
       (mk_sched (next_tid s)
          (<[p := with_state TASK_STATE_SCHEDULED (with_cpu (Some c) t)]> (heap s))
          (pages s)
          (<[c := task_queue s c ++ [p]]> (queues s))
          (trace s ++ [EvSchedulingMsg c p (t_repeat t); EvSpinLock c;
                       EvListAddTail c p;
                       EvTransition p TASK_STATE_READY TASK_STATE_SCHEDULED;
                       EvSpinUnlock c])).
Proof.
  destruct s as [n h pg q tr]; cbn; intros Hp Hst.
  unfold schedule_task, get_task_state, bind, load; cbn. rewrite Hp; cbn.
  rewrite Hst, bool_decide_eq_true_2 by done.
  mrun Hp. rewrite ?Hst. reflexivity.
Qed.

Lemma schedule_task_assert s p t c :
  heap s !! p = Some t ->
  t_state t <> TASK_STATE_READY ->
  schedule_task (Some p) (Some c) s = Stop Panic s.
Proof.
  destruct s as [n h pg q tr]; cbn; intros Hp Hst.
  unfold schedule_task, get_task_state, bind, load; cbn. rewrite Hp; cbn.
  rewrite bool_decide_eq_false_2 by done. reflexivity.
Qed.

Lemma run_task_ok s p t c :
  heap s !! p = Some t ->
  t_state t = TASK_STATE_SCHEDULED ->
  t_cpu t = Some c ->
  run_task (Some p) s =
    Ok tt (mk_sched (next_tid s) (<[p := ran t]> (heap s)) (pages s) (queues s)
                    (trace s ++ run_events p c t)).
Proof.
  destruct s as [n h pg q tr]; cbn; intros Hp Hst Hc.
  unfold run_events, ran, task_result, inc_count.
  mrun Hp. rewrite Hst. mrun Hp.
  destruct (_ =? 0)%Z; mrun Hc;
    destruct (t_type t =? TASK_TYPE_USER)%Z; mred;
    unfold with_state, with_result, with_exec_count; cbn;
    rewrite ?Hst, ?Hc; reflexivity.
Qed.

Lemma run_task_hang s p t :
  heap s !! p = Some t ->
  t_state t <> TASK_STATE_SCHEDULED ->
  run_task (Some p) s = Stop Hang s.
Proof.
  destruct s as [n h pg q tr]; cbn; intros Hp Hst.
  unfold run_task, wait_for_task_state, get_task_state, bind, load. cbn.
  rewrite Hp; cbn. destruct (decide _); [done | reflexivity].
Qed.

(** Without an owning processor the message of a wrapped counter cannot be
    formatted: [task->cpu->id] is read through a null pointer. *)
Lemma run_task_no_cpu s p t :
  heap s !! p = Some t ->
  t_state t = TASK_STATE_SCHEDULED ->
  t_cpu t = None ->
  trace (final (run_task (Some p) s)) =
    trace s ++
      if (inc_count t =? 0)%Z then []
      else [EvTransition p TASK_STATE_SCHEDULED TASK_STATE_RUNNING;
            EvCall p (t_func t) (t_arg t);
            EvTransition p TASK_STATE_RUNNING TASK_STATE_DONE].
Proof.
  destruct s as [n h pg q tr]; cbn; intros Hp Hst Hc.
  unfold inc_count. mrun Hp. rewrite Hst. mrun Hp.
  destruct (_ =? 0)%Z; mrun Hc.
  - symmetry. apply app_nil_r.
  - destruct (t_type t =? TASK_TYPE_USER)%Z; mred; rewrite ?Hst; reflexivity.
Qed.

Lemma emitted_ok {A} (m : M A) s r tr ne pg q new :
  m s = r -> final r = mk_sched ne tr pg q (trace s ++ new) ->
  emitted m s = new.
Proof.
  intros <- Hf. unfold emitted. rewrite Hf. cbn. apply drop_app_length.
Qed.

Lemma emitted_extends {A} (m : M A) s new :
  trace (final (m s)) = trace s ++ new -> emitted m s = new.
Proof. intros H. unfold emitted. rewrite H. apply drop_app_length. Qed.

Lemma process_task_repeat_again s p t :
  heap s !! p = Some t ->
  t_repeat t <> TASK_REPEAT_ONCE ->
  process_task_repeat p s =
    Ok tt (mk_sched (next_tid s) (<[p := recycled t]> (heap s)) (pages s) (queues s)
             (trace s ++ [EvRepeatSwitch p (t_repeat t);
                          EvTransition p (t_state t) TASK_STATE_SCHEDULED])).
Proof.
  destruct s as [n h pg q tr]; cbn; intros Hp Hr.
  apply Z.eqb_neq in Hr. unfold process_task_repeat, recycled.
  unfold bind at 1, load at 1; cbn. rewrite Hp.
  unfold bind at 1, emit at 1. rewrite Hr.
  destruct (t_repeat t =? TASK_REPEAT_LOOP)%Z; mrun Hp; reflexivity.
Qed.

Lemma destroy_task_ok s p t c :
  heap s !! p = Some t ->
  t_cpu t = Some c ->
  destroy_task (Some p) s = Ok tt (destroyed s p t (destroy_events p c t)).
Proof.
  destruct s as [n h pg q tr]; cbn; intros Hp Hc.
  unfold destroyed, destroy_events. mrun Hp. rewrite Hc.
  destruct (t_stack t); mrun Hp; reflexivity.
Qed.

(** An unsubmitted task has no processor: [&task->cpu->lock] is taken
    through a null pointer. *)
Lemma destroy_task_no_cpu s p t :
  heap s !! p = Some t ->
  t_cpu t = None ->
  destroy_task (Some p) s = Stop Fault s.
Proof.
  destruct s as [n h pg q tr]; cbn; intros Hp Hc.
  mrun Hp. rewrite Hc. reflexivity.
Qed.

Lemma process_task_repeat_once s p t c :
  heap s !! p = Some t ->
  t_repeat t = TASK_REPEAT_ONCE ->
  t_cpu t = Some c ->
  process_task_repeat p s =
    Ok tt (destroyed s p t
             ([EvRepeatSwitch p TASK_REPEAT_ONCE;
               EvFinishedMsg p c (t_result t) (t_exec_count t)]
                ++ destroy_events p c t)).
Proof.
  intros Hp Hr Hc. unfold process_task_repeat.
  unfold bind at 1, load at 1. rewrite Hp.
  unfold bind at 1, emit at 1. rewrite Hr, Z.eqb_refl.
  unfold bind at 1, task_cpu at 1. rewrite Hc. unfold ret at 1.
  unfold bind at 1, emit at 1.
  erewrite destroy_task_ok by (cbn; eauto).
  destruct s as [n h pg q tr]; unfold destroyed; cbn.
  rewrite <- !app_assoc. reflexivity.
Qed.

(** ** Submission *)

(** C8: submitting a READY task.  Without a target processor
    [schedule_task] returns [-EEXIST] and changes neither the task objects
    nor any queue nor the pages (only the warning is logged); with a
    processor [c] it returns 0, the task is the new last entry of [c]'s
    queue, every other queue is as before, the task points to [c] and is
    SCHEDULED, and no other task object changed. *)
Theorem schedule_task_spec (s : sched) (p : nat) (t : task) :
  heap s !! p = Some t ->
  t_state t = TASK_STATE_READY ->
  (exists s',
      schedule_task (Some p) None s = Ok (- EEXIST)%Z s' /\
      heap s' = heap s /\ queues s' = queues s /\ pages s' = pages s /\
      trace s' = trace s ++ [EvWarning p]) /\
  (forall c, exists s',
      schedule_task (Some p) (Some c) s = Ok 0%Z s' /\
      task_queue s' c = task_queue s c ++ [p] /\
      (forall c', c' <> c -> task_queue s' c' = task_queue s c') /\
      heap s' !! p = Some (with_state TASK_STATE_SCHEDULED (with_cpu (Some c) t)) /\
      (forall q, q <> p -> heap s' !! q = heap s !! q)).
Proof.
  intros Hp Hst. split.
  - rewrite (schedule_task_no_cpu _ _ _ Hp). eexists. split; [reflexivity|].
    destruct s; cbn. repeat split; reflexivity.
  - intros c. eexists. rewrite (schedule_task_ok _ _ _ c Hp Hst).
    split; [reflexivity|]. unfold task_queue; cbn.
    rewrite lookup_insert_eq. repeat split.
    + intros c' Hc'. rewrite lookup_insert_ne by done. reflexivity.
    + apply lookup_insert_eq.
    + intros q Hq. apply lookup_insert_ne. done.
Qed.

(** ** Construction *)

(** C9: for a live task, [prepare_task] returns [ESUCCESS] whether or not
    the stack page could be allocated; the only other outcome is the halt of
    its [ASSERT] on a task that is already past READY, never an error code.
    Hence, whenever [create_task] returns a task, [new_task] returns that
    task and never enters its clean-up branch (no lock, unlink or free is
    emitted), and [new_task] returns no task exactly when the allocation of
    the task object fails. *)
Theorem prepare_task_always_succeeds :
  (forall s p t name func arg type page_ok,
      heap s !! p = Some t ->
      (state_index (t_state t) <= state_index TASK_STATE_READY ->
       exists s', prepare_task (Some p) name func arg type page_ok s = Ok ESUCCESS s') /\
      (state_index TASK_STATE_READY < state_index (t_state t) ->
       prepare_task (Some p) name func arg type page_ok s = Stop Panic s)) /\
  (forall s name func arg type kzalloc_ok page_ok p s1,
      create_task kzalloc_ok s = Ok (Some p) s1 ->
      exists s2,
        prepare_task (Some p) name func arg type page_ok s1 = Ok ESUCCESS s2 /\
        new_task name func arg type kzalloc_ok page_ok s = Ok (Some p) s2 /\
        forall e, e ∈ emitted (new_task name func arg type kzalloc_ok page_ok) s ->
                  e <> EvKfree p /\ e <> EvListUnlink p /\
                  forall c, e <> EvSpinLock c) /\
  (forall s name func arg type kzalloc_ok page_ok,
      exists r s',
        new_task name func arg type kzalloc_ok page_ok s = Ok r s' /\
        (r = None <-> kzalloc_ok = false)).
Proof.
  split; [|split].
  - intros s p t name func arg type page_ok Hp. split; intros Hst.
    + destruct (Z.eq_dec type TASK_TYPE_USER) as [->|Hty].
      * rewrite (prepare_task_user _ _ _ _ _ _ _ Hp Hst). eauto.
      * rewrite (prepare_task_kernel _ _ _ _ _ _ _ _ Hp Hst Hty). eauto.
    + apply (prepare_task_assert _ _ _ _ _ _ _ _ Hp Hst).
  - intros s name func arg type [] page_ok p s1 Hc;
      [|rewrite create_task_fail in Hc; discriminate].
    rewrite create_task_ok in Hc. injection Hc as <- <-.
    pose proof (new_task_ok s name func arg type page_ok) as Hn.
    exists (new_task_state s name func arg type page_ok).
    split; [|split; [exact Hn|]].
    + revert Hn. unfold new_task, bind at 1. rewrite create_task_ok.
      unfold bind.
      match goal with |- context [prepare_task ?a ?b ?c ?d ?e ?f ?g] =>
        destruct (prepare_task a b c d e f g) as [rc s2|w s2] eqn:Hprep end;
        [|discriminate].
      destruct (Z.eqb_spec rc ESUCCESS) as [->|Hne].
      * unfold ret. intros [= ->]. reflexivity.
      * destruct (destroy_task _ s2); discriminate.
    + intros e He.
      erewrite emitted_ok in He; [|exact Hn|reflexivity].
      unfold new_task_stack in He.
      destruct (type =? TASK_TYPE_USER)%Z;
        repeat (apply elem_of_cons in He as [->|He]; [repeat split; try intros ?; discriminate|]);
        inversion He.
  - intros s name func arg type [] page_ok.
    + rewrite new_task_ok. do 2 eexists. split; [reflexivity|]. split; discriminate.
    + rewrite new_task_fail. do 2 eexists. split; [reflexivity|]. done.
Qed.

(** ** The start message of [run_task] *)

Lemma first_run_ok s name func arg type page_ok c :
  let p := fresh (dom (heap s)) in
  let s1 := new_task_state s name func arg type page_ok in
  let t := prepared (created_task (next_tid s)) name func arg type
                    (new_task_stack s type page_ok) in
  let t2 := with_state TASK_STATE_SCHEDULED (with_cpu (Some c) t) in
  exists s3,
    first_run name func arg type true page_ok c s = Ok tt s3 /\
    heap s3 !! p = Some (ran t2) /\
    trace s3 =
      trace s1 ++ [EvSchedulingMsg c p TASK_REPEAT_ONCE; EvSpinLock c;
                   EvListAddTail c p;
                   EvTransition p TASK_STATE_READY TASK_STATE_SCHEDULED;
                   EvSpinUnlock c]
               ++ [EvTransition p TASK_STATE_SCHEDULED TASK_STATE_RUNNING;
                   EvCall p func arg;
                   EvTransition p TASK_STATE_RUNNING TASK_STATE_DONE].
Proof.
  intros p s1 t t2. unfold first_run, bind at 1. rewrite new_task_ok.
  fold p s1.
  assert (H1 : heap s1 !! p = Some t) by apply lookup_insert_eq.
  unfold bind at 1.
  rewrite (schedule_task_ok s1 p t c H1 eq_refl).
  match goal with |- context [run_task _ ?s] => set (s2 := s) end.
  assert (H2 : heap s2 !! p = Some t2) by apply lookup_insert_eq.
  rewrite (run_task_ok s2 p t2 c H2 eq_refl eq_refl).
  eexists. split; [reflexivity|]. cbn. split.
  - apply lookup_insert_eq.
  - rewrite <- !app_assoc. reflexivity.
Qed.

(** C5: whatever the task and the state it is in, [run_task] prints the
    "Running task" message only if the counter is zero after the increment,
    and it does print it then for a SCHEDULED task of a processor; the first
    execution of a task that was constructed and submitted does run the task
    function and prints no such message. *)
Theorem running_message_gate :
  (forall s p t c,
      heap s !! p = Some t ->
      EvRunningMsg c p ∈ emitted (run_task (Some p)) s ->
      ((t_exec_count t + 1) mod COUNT_MODULUS = 0)%Z) /\
  (forall s p t c,
      heap s !! p = Some t ->
      t_state t = TASK_STATE_SCHEDULED -> t_cpu t = Some c ->
      ((t_exec_count t + 1) mod COUNT_MODULUS = 0)%Z ->
      EvRunningMsg c p ∈ emitted (run_task (Some p)) s) /\
  (forall s name func arg type page_ok c,
      exists s',
        first_run name func arg type true page_ok c s = Ok tt s' /\
        EvCall (fresh (dom (heap s))) func arg
          ∈ emitted (first_run name func arg type true page_ok c) s /\
        forall c' p',
          EvRunningMsg c' p' ∉ emitted (first_run name func arg type true page_ok c) s).
Proof.
  split; [|split].
  - intros s p t c Hp Hin.
    destruct (decide (t_state t = TASK_STATE_SCHEDULED)) as [Hst|Hst].
    + destruct (t_cpu t) as [c0|] eqn:Hc.
      * erewrite emitted_ok in Hin;
          [|apply (run_task_ok s p t c0 Hp Hst Hc)|reflexivity].
        unfold run_events, inc_count in Hin.
        destruct (Z.eqb_spec ((t_exec_count t + 1) mod COUNT_MODULUS) 0); [done|].
        repeat (apply elem_of_cons in Hin as [Hin|Hin]; [discriminate|]).
        inversion Hin.
      * rewrite (emitted_extends _ _ _ (run_task_no_cpu s p t Hp Hst Hc)) in Hin.
        unfold inc_count in Hin.
        destruct (Z.eqb_spec ((t_exec_count t + 1) mod COUNT_MODULUS) 0); [done|].
        repeat (apply elem_of_cons in Hin as [Hin|Hin]; [discriminate|]).
        inversion Hin.
    + unfold emitted in Hin. rewrite (run_task_hang s p t Hp Hst) in Hin.
      cbn in Hin. rewrite drop_all in Hin. inversion Hin.
  - intros s p t c Hp Hst Hc Hz.
    erewrite emitted_ok; [|apply (run_task_ok s p t c Hp Hst Hc)|reflexivity].
    unfold run_events, inc_count. rewrite Hz. cbn. apply elem_of_cons. auto.
  - intros s name func arg type page_ok c.
    destruct (first_run_ok s name func arg type page_ok c) as (s3 & Hr & _ & Htr).
    exists s3. split; [exact Hr|].
    unfold emitted. rewrite Hr. cbn [final]. rewrite Htr. cbn [new_task_state trace].
    rewrite <- !app_assoc, drop_app_length. split.
    + destruct (type =? TASK_TYPE_USER)%Z; apply list_elem_of_In; cbn; tauto.
    + intros c' p' Hin.
      destruct (type =? TASK_TYPE_USER)%Z; cbn in Hin;
        repeat (apply elem_of_cons in Hin as [Hin|Hin]; [discriminate|]);
        inversion Hin.
Qed.

(** ** One walk of the run loop over a queue *)

Lemma run_tasks_body_ok s c p t :
  heap s !! p = Some t ->
  t_cpu t = Some c ->
  t_state t = TASK_STATE_SCHEDULED \/ t_state t = TASK_STATE_DONE ->
  run_tasks_body p s = Ok tt (body_state s p c t).
Proof.
  intros Hp Hc Hst. unfold run_tasks_body, bind, load. rewrite Hp.
  unfold body_state, task_after, body_events.
  destruct Hst as [Hst|Hst]; rewrite Hst.
  - apply run_task_ok; assumption.
  - destruct (Z.eqb_spec (t_repeat t) TASK_REPEAT_ONCE) as [Hr|Hr].
    + apply process_task_repeat_once; assumption.
    + rewrite (process_task_repeat_again s p t Hp Hr), Hst. reflexivity.
Qed.

Lemma task_queue_body_state s p c t c' :
  task_queue (body_state s p c t) c' =
    match task_after t with
    | Some _ => task_queue s c'
    | None => filter (fun q => q <> p) (task_queue s c')
    end.
Proof.
  unfold body_state. destruct (task_after t); [reflexivity|].
  unfold task_queue, destroyed; cbn. rewrite lookup_fmap.
  destruct (queues s !! c'); reflexivity.
Qed.

Lemma heap_body_state s p c t x :
  heap (body_state s p c t) !! x =
    if decide (x = p) then task_after t else heap s !! x.
Proof.
  unfold body_state, destroyed.
  destruct (task_after t); cbn; destruct (decide (x = p)) as [->|Hne].
  - apply lookup_insert_eq.
  - apply lookup_insert_ne; done.
  - apply lookup_delete_eq.
  - apply lookup_delete_ne; done.
Qed.

Lemma task_after_ok t c t' :
  t_cpu t = Some c ->
  t_state t = TASK_STATE_SCHEDULED \/ t_state t = TASK_STATE_DONE ->
  task_after t = Some t' ->
  t_cpu t' = Some c /\
  (t_state t' = TASK_STATE_SCHEDULED \/ t_state t' = TASK_STATE_DONE).
Proof.
  intros Hc Hst. unfold task_after.
  destruct Hst as [Hst|Hst]; rewrite Hst.
  - intros [= <-]. cbn. auto.
  - destruct (_ =? _)%Z; [discriminate|]. intros [= <-].
    unfold recycled. destruct (_ =? _)%Z; cbn; auto.
Qed.

Lemma queue_ok_body_state s c p t :
  queue_ok s c -> heap s !! p = Some t -> queued_ok s c p ->
  queue_ok (body_state s p c t) c.
Proof.
  intros [Hnd Hall] Hp Hq. unfold queued_ok in Hq. rewrite Hp in Hq.
  destruct Hq as [Hc Hst]. split.
  - rewrite task_queue_body_state. destruct (task_after t); [done|].
    apply NoDup_filter; done.
  - rewrite task_queue_body_state.
    assert (Hx : forall x, x ∈ task_queue s c ->
                (task_after t = None -> x <> p) ->
                queued_ok (body_state s p c t) c x).
    { intros x Hx Hxp. rewrite Forall_forall in Hall. specialize (Hall x Hx).
      unfold queued_ok in *. rewrite heap_body_state.
      destruct (decide (x = p)) as [->|Hne]; [|exact Hall].
      destruct (task_after t) as [t'|] eqn:Ha; [|exfalso; apply Hxp; done].
      eapply task_after_ok; eauto. }
    apply Forall_forall. intros x Hin.
    destruct (task_after t) eqn:Ha.
    + apply Hx; [done | discriminate].
    + apply list_elem_of_filter in Hin as [Hne Hin]. apply Hx; done.
Qed.

Lemma filter_Forall_id {A} (P : A -> Prop) `{!forall x, Decision (P x)} (l : list A) :
  Forall P l -> filter P l = l.
Proof.
  induction 1 as [|x l Hx _ IH]; [reflexivity|].
  rewrite filter_cons_True by done. f_equal. exact IH.
Qed.

Lemma queued_ok_live s c x : queued_ok s c x -> is_Some (heap s !! x).
Proof. unfold queued_ok. destruct (heap s !! x); [eauto | done]. Qed.

Lemma walk_events_ext s1 s2 c l :
  (forall x, x ∈ l -> heap s1 !! x = heap s2 !! x) ->
  walk_events s1 c l = walk_events s2 c l.
Proof.
  induction l as [|x l IH]; intros H; [reflexivity|].
  unfold walk_events in *; cbn. rewrite (H x) by (apply elem_of_cons; auto).
  f_equal. apply IH. intros y Hy. apply H, elem_of_cons; auto.
Qed.

Lemma pages_body_state s p c t :
  pages (body_state s p c t) ⊆ pages s /\
  (forall pg, task_after t = None -> t_stack t = Some pg ->
              pg ∉ pages (body_state s p c t)).
Proof.
  unfold body_state, destroyed.
  destruct (task_after t); cbn.
  - split; [set_solver | intros ? [=]].
  - destruct (t_stack t); split; set_solver.
Qed.

Lemma walk_ok c l :
  forall s, queue_ok s c -> NoDup l -> l ⊆ task_queue s c ->
    exists s', list_for_each_entry_safe run_tasks_body l s = Ok tt s' /\
               walk_post s c l s'.
Proof.
  induction l as [|p l IH]; intros s Hok Hnd Hsub.
  - exists s. split; [reflexivity|].
    split; [exact Hok|]. split; [|split; [|split; [|split]]].
    + intros x. rewrite decide_False; [reflexivity | apply not_elem_of_nil].
    + symmetry. apply filter_Forall_id. destruct Hok as [_ Hall].
      eapply Forall_impl; [exact Hall|]. intros x. apply queued_ok_live.
    + unfold walk_events; cbn. symmetry. apply app_nil_r.
    + reflexivity.
    + intros x t pg Hx. inversion Hx.
  - apply NoDup_cons in Hnd as [Hpl Hnd].
    assert (Hpq : p ∈ task_queue s c) by (apply Hsub, elem_of_cons; auto).
    assert (Hq : queued_ok s c p).
    { destruct Hok as [_ Hall]. rewrite Forall_forall in Hall. auto. }
    pose proof Hq as Hq'. unfold queued_ok in Hq'.
    destruct (heap s !! p) as [t|] eqn:Hp; [|done]. destruct Hq' as [Hc Hst].
    set (s1 := body_state s p c t).
    assert (Hok1 : queue_ok s1 c) by (apply queue_ok_body_state; done).
    assert (Hh1 : forall x, x ∈ l -> heap s1 !! x = heap s !! x).
    { intros x Hx. unfold s1. rewrite heap_body_state.
      destruct (decide (x = p)) as [->|]; [done | reflexivity]. }
    assert (Hsub1 : l ⊆ task_queue s1 c).
    { intros x Hx. unfold s1. rewrite task_queue_body_state.
      assert (x ∈ task_queue s c) by (apply Hsub, elem_of_cons; auto).
      destruct (task_after t); [done|].
      apply list_elem_of_filter. split; [|done]. intros ->. done. }
    destruct (IH s1 Hok1 Hnd Hsub1) as (s' & Hrun & Hok' & Hh & Hqu & Htr & Hpg & Hfree).
    exists s'. split.
    { cbn. unfold bind. rewrite (run_tasks_body_ok s c p t Hp Hc Hst). exact Hrun. }
    assert (Hp' : heap s' !! p = task_after t).
    { rewrite Hh. rewrite decide_False by done. unfold s1.
      rewrite heap_body_state, decide_True by done. reflexivity. }
    split; [exact Hok'|]. split; [|split; [|split; [|split]]].
    + intros x. destruct (decide (x = p)) as [->|Hne].
      * rewrite decide_True by (apply elem_of_cons; auto).
        rewrite Hp, Hp'. reflexivity.
      * rewrite Hh. unfold s1.
        rewrite heap_body_state, (decide_False (P := x = p)) by done.
        destruct (decide (x ∈ l)) as [Hx|Hx].
        -- rewrite decide_True by (apply elem_of_cons; auto). reflexivity.
        -- rewrite decide_False; [reflexivity|].
           intros [->|?]%elem_of_cons; done.
    + rewrite Hqu. unfold s1. rewrite task_queue_body_state.
      destruct (task_after t) eqn:Ha; [reflexivity|].
      rewrite list_filter_filter. apply list_filter_iff.
      intros x. split; [tauto|]. intros Hx. split; [exact Hx|].
      intros ->. rewrite Hp' in Hx. destruct Hx; discriminate.
    + rewrite Htr. unfold s1 at 1.
      assert (Hts : trace (body_state s p c t) = trace s ++ body_events p c t).
      { unfold body_state, destroyed. destruct (task_after t); reflexivity. }
      rewrite Hts, <- app_assoc. f_equal.
      rewrite (walk_events_ext s1 s c l Hh1).
      unfold walk_events; cbn. rewrite Hp. reflexivity.
    + etrans; [exact Hpg|]. apply pages_body_state.
    + intros x t' pg [->|Hx]%elem_of_cons Hx' Ha Hs.
      * rewrite Hp in Hx'. injection Hx' as <-.
        intros Hin. apply Hpg in Hin. revert Hin.
        apply pages_body_state; done.
      * apply (Hfree x t' pg Hx); try done. rewrite Hh1; done.
Qed.

(** ** Counting events *)

Lemma count_app f a b : count f (a ++ b) = count f a + count f b.
Proof. unfold count. rewrite List.filter_app, length_app. reflexivity. Qed.

Lemma count_calls_body p c t x :
  count (is_call p) (body_events x c t) =
    if decide (x = p /\ t_state t = TASK_STATE_SCHEDULED) then 1 else 0.
Proof.
  unfold body_events, run_events, destroy_events, count.
  destruct (t_state t) eqn:Hst;
    destruct (inc_count t =? 0)%Z;
    destruct (Z.eqb_spec (t_repeat t) TASK_REPEAT_ONCE);
    destruct (t_stack t); cbn;
    repeat case_bool_decide; case_decide; cbn;
    solve [reflexivity | exfalso; naive_solver].
Qed.

Lemma count_kfree_body p c t x :
  count (is_kfree p) (body_events x c t) =
    if decide (x = p /\ t_state t = TASK_STATE_DONE /\ t_repeat t = TASK_REPEAT_ONCE)
    then 1 else 0.
Proof.
  unfold body_events, run_events, destroy_events, count.
  destruct (t_state t) eqn:Hst;
    destruct (inc_count t =? 0)%Z;
    destruct (Z.eqb_spec (t_repeat t) TASK_REPEAT_ONCE);
    destruct (t_stack t); cbn;
    repeat case_bool_decide; case_decide; cbn;
    solve [reflexivity | exfalso; naive_solver].
Qed.

Lemma walk_events_cons s c x l :
  walk_events s c (x :: l) =
    match heap s !! x with Some t => body_events x c t | None => [] end
      ++ walk_events s c l.
Proof. reflexivity. Qed.

(** Events counted by [f] are produced only by the walk over the entry
    they belong to. *)
Lemma count_walk_out f p s c l :
  (forall x t, x <> p -> count f (body_events x c t) = 0) ->
  p ∉ l \/ heap s !! p = None ->
  count f (walk_events s c l) = 0.
Proof.
  intros Hf Hp. induction l as [|x l IH]; [reflexivity|].
  rewrite walk_events_cons, count_app.
  rewrite IH by (destruct Hp as [Hp|Hp]; [left; set_solver | right; done]).
  destruct (decide (x = p)) as [->|Hne].
  - destruct Hp as [Hp|Hp]; [set_solver|]. rewrite Hp. reflexivity.
  - destruct (heap s !! x); [|reflexivity]. rewrite Hf by done. reflexivity.
Qed.

Lemma count_walk_in f p s c l t :
  (forall x t, x <> p -> count f (body_events x c t) = 0) ->
  NoDup l -> p ∈ l -> heap s !! p = Some t ->
  count f (walk_events s c l) = count f (body_events p c t).
Proof.
  intros Hf Hnd Hin Hp. induction l as [|x l IH]; [inversion Hin|].
  apply NoDup_cons in Hnd as [Hx Hnd].
  rewrite walk_events_cons, count_app.
  destruct (decide (x = p)) as [->|Hne].
  - rewrite Hp, (count_walk_out f p s c l Hf) by auto. lia.
  - apply elem_of_cons in Hin as [->|Hin]; [done|].
    rewrite IH by done.
    destruct (heap s !! x); [rewrite Hf by done|]; reflexivity.
Qed.

Lemma walk_events_in s c l p t e :
  p ∈ l -> heap s !! p = Some t -> e ∈ body_events p c t ->
  e ∈ walk_events s c l.
Proof.
  intros Hin Hp He. unfold walk_events. apply list_elem_of_In, in_flat_map.
  exists p. split; [apply list_elem_of_In; done|]. rewrite Hp.
  apply list_elem_of_In; done.
Qed.

Lemma calls_other p c x t : x <> p -> count (is_call p) (body_events x c t) = 0.
Proof. intros H. rewrite count_calls_body, decide_False by tauto. reflexivity. Qed.

Lemma kfree_other p c x t : x <> p -> count (is_kfree p) (body_events x c t) = 0.
Proof. intros H. rewrite count_kfree_body, decide_False by tauto. reflexivity. Qed.

(** ** The run loop *)

Lemma loop_step c fuel s :
  queue_ok s c ->
  exists s1,
    walk_post s c (task_queue s c) s1 /\
    run_tasks_loop (S fuel) c s =
      match task_queue s1 c with
      | [] => Ok tt s1
      | _ :: _ => run_tasks_loop fuel c s1
      end.
Proof.
  intros Hok.
  destruct (walk_ok c (task_queue s c) s Hok (proj1 Hok)) as (s1 & Hrun & Hpost);
    [done|].
  exists s1. split; [exact Hpost|].
  cbn [run_tasks_loop]. unfold bind, get_queue. rewrite Hrun.
  destruct (task_queue s1 c); reflexivity.
Qed.

Lemma queue_ok_not_live s c p : queue_ok s c -> heap s !! p = None -> p ∉ task_queue s c.
Proof.
  intros [_ Hall] Hp Hin. rewrite Forall_forall in Hall.
  apply Hall, queued_ok_live in Hin. rewrite Hp in Hin. destruct Hin; discriminate.
Qed.

(** Once a task object is gone the loop never mentions it again. *)
Lemma loop_gone c p fuel :
  forall s, queue_ok s c -> heap s !! p = None ->
    let r := run_tasks_loop fuel c s in
    good r /\ queue_ok (final r) c /\ heap (final r) !! p = None /\
    pages (final r) ⊆ pages s /\
    exists new, trace (final r) = trace s ++ new /\
                count (is_call p) new = 0 /\ count (is_kfree p) new = 0.
Proof.
  induction fuel as [|fuel IH]; intros s Hok Hp r.
  - subst r; cbn. split_and!; try done.
    exists []. rewrite app_nil_r. done.
  - destruct (loop_step c fuel s Hok) as (s1 & Hpost & Hloop).
    destruct Hpost as (Hok1 & Hh & Hq & Htr & Hpg & _).
    assert (Hp1 : heap s1 !! p = None).
    { rewrite Hh, Hp. destruct (decide _); reflexivity. }
    assert (Hc1 : count (is_call p) (walk_events s c (task_queue s c)) = 0).
    { apply (count_walk_out _ p); [intros; apply calls_other; done | auto]. }
    assert (Hk1 : count (is_kfree p) (walk_events s c (task_queue s c)) = 0).
    { apply (count_walk_out _ p); [intros; apply kfree_other; done | auto]. }
    subst r. rewrite Hloop. destruct (task_queue s1 c) eqn:Hq1.
    + cbn. split_and!; try done. eauto.
    + destruct (IH s1 Hok1 Hp1) as (Hg & Hok' & Hp' & Hpg' & new & Htr' & Hc' & Hk').
      split_and!; try done.
      * etrans; done.
      * exists (walk_events s c (task_queue s c) ++ new).
        rewrite Htr', Htr, <- app_assoc, !count_app, Hc1, Hk1, Hc', Hk'. done.
Qed.

Lemma walk_post_entry s c s1 p t :
  queue_ok s c -> walk_post s c (task_queue s c) s1 ->
  p ∈ task_queue s c -> heap s !! p = Some t ->
  heap s1 !! p = task_after t /\
  (is_Some (task_after t) -> p ∈ task_queue s1 c) /\
  exists ev, trace s1 = trace s ++ ev /\
             count (is_call p) ev = count (is_call p) (body_events p c t) /\
             count (is_kfree p) ev = count (is_kfree p) (body_events p c t) /\
             forall e, e ∈ body_events p c t -> e ∈ ev.
Proof.
  intros Hok (Hok1 & Hh & Hq & Htr & Hpg & Hfree) Hin Hp.
  assert (Hp1 : heap s1 !! p = task_after t).
  { rewrite Hh, decide_True, Hp by done. reflexivity. }
  split; [exact Hp1|]. split.
  - intros Hs. rewrite Hq. apply list_elem_of_filter. rewrite Hp1. done.
  - exists (walk_events s c (task_queue s c)). split; [exact Htr|].
    split; [|split].
    + apply count_walk_in; try done; [intros; apply calls_other; done | apply Hok].
    + apply count_walk_in; try done; [intros; apply kfree_other; done | apply Hok].
    + intros e He. eapply walk_events_in; done.
Qed.

Lemma loop_lifecycle c p k :
  forall fuel s t,
    queue_ok s c -> p ∈ task_queue s c -> heap s !! p = Some t ->
    t_state t = TASK_STATE_SCHEDULED -> countdown k (t_repeat t) ->
    2 * S k <= fuel ->
    lifecycle_post s c p t k (run_tasks_loop fuel c s).
Proof.
  induction k as [|k IH]; intros fuel s t Hok Hin Hp Hst Hcd Hfuel.
  all: destruct fuel as [|[|fuel]]; [lia | lia |].
  all: destruct (loop_step c (S fuel) s Hok) as (s1 & Hpost1 & Hloop1).
  all: destruct (walk_post_entry s c s1 p t Hok Hpost1 Hin Hp)
         as (Hp1 & Hin1 & ev1 & Htr1 & Hc1 & Hk1 & _).
  all: assert (Hta : task_after t = Some (ran t))
         by (unfold task_after; rewrite Hst; reflexivity).
  all: rewrite Hta in Hp1; specialize (Hin1 (ltac:(rewrite Hta; eauto))).
  all: rewrite count_calls_body, decide_True in Hc1 by done.
  all: rewrite count_kfree_body, decide_False in Hk1
         by (rewrite Hst; intros (_ & ? & _); discriminate).
  all: rewrite Hloop1; destruct (task_queue s1 c) as [|x1 q1] eqn:Hq1;
         [inversion Hin1 | rewrite <- Hq1 in *; clear x1 q1 Hq1].
  all: pose proof Hpost1 as (Hok1 & _ & _ & _ & Hpg1 & _).
  all: destruct (loop_step c fuel s1 Hok1) as (s2 & Hpost2 & Hloop2).
  all: destruct (walk_post_entry s1 c s2 p (ran t) Hok1 Hpost2 Hin1 Hp1)
         as (Hp2 & Hin2 & ev2 & Htr2 & Hc2 & Hk2 & He2).
  all: pose proof Hpost2 as (Hok2 & _ & _ & _ & Hpg2 & Hfree2).
  all: rewrite count_calls_body, decide_False in Hc2
         by (intros [_ ?]; discriminate).
  all: rewrite Hloop2.
  - (* the count is ONCE: the second walk destroys the task *)
    cbn in Hcd.
    assert (Hta2 : task_after (ran t) = None).
    { unfold task_after; cbn. rewrite Hcd, Z.eqb_refl. reflexivity. }
    rewrite Hta2 in Hp2.
    rewrite count_kfree_body, decide_True in Hk2 by done.
    assert (Hst2 : forall pg, t_stack t = Some pg -> pg ∉ pages s2).
    { intros pg Hs. apply (Hfree2 p (ran t) pg); done. }
    assert (Hput : forall pg, t_stack t = Some pg -> EvPutPage pg ∈ ev1 ++ ev2).
    { intros pg Hs. apply elem_of_app. right. apply He2.
      unfold body_events, destroy_events; cbn. rewrite Hcd, Z.eqb_refl, Hs.
      apply list_elem_of_In; cbn; tauto. }
    assert (Hfin : EvFinishedMsg p c (task_result t)
                     ((t_exec_count t + 1) mod COUNT_MODULUS)%Z ∈ ev1 ++ ev2).
    { apply elem_of_app. right. apply He2.
      unfold body_events; cbn. rewrite Hcd, Z.eqb_refl.
      apply list_elem_of_In; cbn; tauto. }
    destruct (task_queue s2 c) as [|x2 q2] eqn:Hq2.
    + unfold lifecycle_post. cbn [final]. split_and!; try done.
      * rewrite Hq2. apply not_elem_of_nil.
      * etrans; done.
      * exists (ev1 ++ ev2). rewrite Htr2, Htr1, <- app_assoc, !count_app.
        split_and!; try done; lia.
    + destruct (loop_gone c p fuel s2 Hok2 Hp2)
        as (Hg & Hok' & Hp' & Hpg' & new & Htr' & Hc' & Hk').
      split_and!; try done.
      * apply queue_ok_not_live; done.
      * etrans; [exact Hpg'|]. etrans; done.
      * intros pg Hs Hpg. apply Hpg' in Hpg. revert Hpg. apply Hst2; done.
      * exists ((ev1 ++ ev2) ++ new).
        rewrite Htr', Htr2, Htr1, <- !app_assoc, !count_app.
        split_and!; try done; try lia.
        -- intros pg Hs. rewrite !app_assoc. apply elem_of_app. left. auto.
        -- rewrite !app_assoc. apply elem_of_app. left. done.
  - (* one more decrement: the second walk hands the task back *)
    cbn in Hcd. destruct Hcd as (Hne1 & Hne2 & Hcd).
    assert (Hta2 : task_after (ran t) = Some (recycled (ran t))).
    { unfold task_after; cbn. apply Z.eqb_neq in Hne1. rewrite Hne1. reflexivity. }
    rewrite Hta2 in Hp2. specialize (Hin2 (ltac:(rewrite Hta2; eauto))).
    rewrite count_kfree_body, decide_False in Hk2 by (cbn; tauto).
    destruct (task_queue s2 c) as [|x2 q2] eqn:Hq2;
      [inversion Hin2 | rewrite <- Hq2 in *; clear x2 q2 Hq2].
    assert (Hrec : recycled (ran t) =
                   with_state TASK_STATE_SCHEDULED
                     (with_repeat ((t_repeat t - 1) mod REPEAT_MODULUS)%Z (ran t))).
    { unfold recycled; cbn. apply Z.eqb_neq in Hne2. rewrite Hne2. reflexivity. }
    destruct (IH fuel s2 (recycled (ran t)) Hok2 Hin2 Hp2)
      as (Hg & Hok' & Hp' & Hni' & Hpg' & Hst' & new & Htr' & Hc' & Hk' & Hput' & Hfin');
      [rewrite Hrec; reflexivity | rewrite Hrec; exact Hcd | lia |].
    split_and!; try done.
    + etrans; [exact Hpg'|]. etrans; done.
    + intros pg Hs. apply Hst'. rewrite Hrec. exact Hs.
    + exists ((ev1 ++ ev2) ++ new).
      rewrite Htr', Htr2, Htr1, <- !app_assoc, !count_app.
      split_and!; try done; try lia.
      * intros pg Hs. rewrite !elem_of_app. right. right.
        apply Hput'. rewrite Hrec. exact Hs.
      * rewrite !elem_of_app. right. right.
        rewrite Hrec in Hfin'. cbn in Hfin'.
        replace ((t_exec_count t + Z.of_nat (S (S k))) mod COUNT_MODULUS)%Z
          with ((inc_count t + Z.of_nat (S k)) mod COUNT_MODULUS)%Z; [exact Hfin'|].
        unfold inc_count. rewrite Zplus_mod_idemp_l. f_equal. lia.
Qed.

Lemma run_tasks_unfold fuel c s :
  run_tasks fuel c s =
    match run_tasks_loop fuel c (with_trace (trace s ++ signals_before c) s) with
    | Ok _ s' => Ok tt (with_trace (trace s' ++ signals_after c) s')
    | Stop w s' => Stop w s'
    end.
Proof.
  unfold run_tasks, signals_before, signals_after.
  destruct s as [n h pg q tr].
  destruct (is_cpu_bsp c); unfold bind, emit, ret, with_trace; cbn;
    rewrite <- ?app_assoc; cbn;
    (destruct (run_tasks_loop _ _ _) as [[] s'|w s']; [|reflexivity]);
    destruct s'; cbn; rewrite <- ?app_assoc; reflexivity.
Qed.

Lemma count_signals f c :
  (forall c' w, f (EvCpuSignal c' w) = false) ->
  count f (signals_before c) = 0 /\ count f (signals_after c) = 0.
Proof.
  intros Hf. unfold signals_before, signals_after, count.
  destruct (is_cpu_bsp c); cbn; rewrite !Hf; done.
Qed.

Lemma run_tasks_lifecycle c p k fuel s t :
  queue_ok s c -> p ∈ task_queue s c -> heap s !! p = Some t ->
  t_state t = TASK_STATE_SCHEDULED -> countdown k (t_repeat t) ->
  2 * S k <= fuel ->
  lifecycle_post s c p t k (run_tasks fuel c s).
Proof.
  intros Hok Hin Hp Hst Hcd Hfuel.
  pose proof (loop_lifecycle c p k fuel
                (with_trace (trace s ++ signals_before c) s) t
                Hok Hin Hp Hst Hcd Hfuel) as HL.
  rewrite run_tasks_unfold.
  destruct (count_signals (is_call p) c) as [Hcb Hca]; [done|].
  destruct (count_signals (is_kfree p) c) as [Hkb Hka]; [done|].
  destruct (run_tasks_loop _ _ _) as [[] s'|w s'];
    destruct HL as (Hg & Hok' & Hp' & Hni & Hpg & Hst' & new & Htr & Hc & Hk & Hput & Hfin);
    cbn [final] in *; (split_and!; [done..|]).
  - exists (signals_before c ++ new ++ signals_after c).
    cbn [final with_trace trace] in *. rewrite Htr, <- !app_assoc, !count_app.
    split_and!; try done; try lia.
    + intros pg Hs. rewrite !elem_of_app. right. left. auto.
    + rewrite !elem_of_app. right. left. auto.
  - exists (signals_before c ++ new).
    cbn [final with_trace trace] in *. rewrite Htr, <- !app_assoc, !count_app.
    split_and!; try done; try lia.
    + intros pg Hs. rewrite !elem_of_app. right. auto.
    + rewrite !elem_of_app. right. auto.
Qed.

Lemma countdown_from_zero :
  TASK_REPEAT_ONCE = 0%Z ->
  forall n : nat,
    (Z.of_nat n < TASK_REPEAT_LOOP)%Z -> (Z.of_nat n < REPEAT_MODULUS)%Z ->
    countdown n (Z.of_nat n).
Proof.
  intros Honce n. induction n as [|n IH]; intros Hl Hm; cbn [countdown].
  - symmetry. exact Honce.
  - split; [lia|]. split; [lia|].
    replace ((Z.of_nat (S n) - 1) mod REPEAT_MODULUS)%Z with (Z.of_nat n).
    + apply IH; lia.
    + rewrite Z.mod_small; lia.
Qed.

(** ** Repeat policies *)

Lemma countdown_value k :
  forall r,
    countdown k r ->
    (0 <= TASK_REPEAT_ONCE)%Z -> (TASK_REPEAT_ONCE <= r < REPEAT_MODULUS)%Z ->
    r = (TASK_REPEAT_ONCE + Z.of_nat k)%Z.
Proof.
  induction k as [|k IH]; intros r Hcd H0 Hr; cbn [countdown] in Hcd; [lia|].
  destruct Hcd as (Hne & _ & Hcd).
  rewrite Z.mod_small in Hcd by lia.
  apply IH in Hcd; lia.
Qed.

(** C1 (amended): the number of executions follows the decrements, not
    the count itself.  A task that is SCHEDULED in the queue of processor
    [c] with a finite repeat value (neither sentinel) from which [S k]
    decrements lead to the ONCE sentinel, none of the values on the way
    being the LOOP sentinel, is called exactly [S k + 1] times by
    [run_tasks], given the walks this takes, and is then destroyed:
    unlinked, its stack page (if it has one) released, the task object
    freed once; no assertion, fault or hang stops the run.  For a count N
    at or above a non-negative ONCE this is N - ONCE + 1 executions: N + 1
    only when ONCE is 0.  A retirement with a count that is neither
    sentinel stores the count decremented and the state SCHEDULED. *)
Theorem finite_repeat_runs (k c p fuel : nat) (s : sched) (t : task) :
  queue_ok s c -> p ∈ task_queue s c -> heap s !! p = Some t ->
  t_state t = TASK_STATE_SCHEDULED ->
  countdown (S k) (t_repeat t) ->
  2 * (S k + 1) <= fuel ->
  good (run_tasks fuel c s) /\
  count (is_call p) (emitted (run_tasks fuel c) s) = S k + 1 /\
  ((0 <= TASK_REPEAT_ONCE)%Z ->
   (TASK_REPEAT_ONCE <= t_repeat t < REPEAT_MODULUS)%Z ->
   Z.of_nat (S k + 1) = (t_repeat t - TASK_REPEAT_ONCE + 1)%Z) /\
  count (is_kfree p) (emitted (run_tasks fuel c) s) = 1 /\
  heap (final (run_tasks fuel c s)) !! p = None /\
  (p ∉ task_queue (final (run_tasks fuel c s)) c) /\
  (forall pg, t_stack t = Some pg ->
     (pg ∉ pages (final (run_tasks fuel c s))) /\
     EvPutPage pg ∈ emitted (run_tasks fuel c) s) /\
  (forall s' t',
      heap s' !! p = Some t' ->
      t_repeat t' <> TASK_REPEAT_ONCE -> t_repeat t' <> TASK_REPEAT_LOOP ->
      exists s'',
        process_task_repeat p s' = Ok tt s'' /\
        heap s'' !! p =
          Some (with_state TASK_STATE_SCHEDULED
                  (with_repeat ((t_repeat t' - 1) mod REPEAT_MODULUS)%Z t'))).
Proof.
  intros Hok Hin Hp Hst Hcd Hfuel.
  destruct (run_tasks_lifecycle c p (S k) fuel s t Hok Hin Hp Hst Hcd)
    as (Hg & _ & Hp' & Hni & _ & Hpg & new & Htr & Hc & Hk & Hput & _); [lia|].
  rewrite (emitted_extends _ _ _ Htr).
  split_and!; try done.
  - lia.
  - intros H0 Hr. pose proof (countdown_value _ _ Hcd H0 Hr). lia.
  - intros pg Hs. split; [apply Hpg, Hs | apply Hput, Hs].
  - intros s' t' Hp1 Hn1 Hn2. eexists.
    rewrite (process_task_repeat_again s' p t' Hp1 Hn1). split; [reflexivity|].
    cbn. rewrite lookup_insert_eq. unfold recycled.
    apply Z.eqb_neq in Hn2. rewrite Hn2. reflexivity.
Qed.

(** C4: a task that is SCHEDULED in the queue of processor [c] with the
    ONCE policy and a counter of zero is called exactly once by
    [run_tasks]; then it is unlinked from the queue, its stack page (if
    it has one) is released, the task object is freed once, and the
    completion message, printed at retirement, shows a counter of 1. *)
Theorem once_task_retired (c p fuel : nat) (s : sched) (t : task) :
  queue_ok s c -> p ∈ task_queue s c -> heap s !! p = Some t ->
  t_state t = TASK_STATE_SCHEDULED ->
  t_repeat t = TASK_REPEAT_ONCE -> t_exec_count t = 0%Z ->
  2 <= fuel ->
  good (run_tasks fuel c s) /\
  count (is_call p) (emitted (run_tasks fuel c) s) = 1 /\
  count (is_kfree p) (emitted (run_tasks fuel c) s) = 1 /\
  heap (final (run_tasks fuel c s)) !! p = None /\
  (p ∉ task_queue (final (run_tasks fuel c s)) c) /\
  (forall pg, t_stack t = Some pg ->
              (pg ∉ pages (final (run_tasks fuel c s))) /\
              EvPutPage pg ∈ emitted (run_tasks fuel c) s) /\
  (EvFinishedMsg p c (task_result t) 1) ∈ emitted (run_tasks fuel c) s.
Proof.
  intros Hok Hin Hp Hst Hr He Hfuel.
  destruct (run_tasks_lifecycle c p 0 fuel s t Hok Hin Hp Hst Hr)
    as (Hg & _ & Hp' & Hni & _ & Hpg & new & Htr & Hc & Hk & Hput & Hfin); [lia|].
  rewrite (emitted_extends _ _ _ Htr). rewrite He in Hfin.
  split_and!; try done. intros pg Hs. split; auto.
Qed.

Lemma construct_submit_ok s name func arg type page_ok c :
  (task <- new_task name func arg type true page_ok ;;
   schedule_task task (Some c)) s =
    Ok 0%Z (submitted_state s name func arg type page_ok c).
Proof.
  unfold bind. rewrite new_task_ok.
  rewrite (schedule_task_ok _ _
             (prepared (created_task (next_tid s)) name func arg type
                       (new_task_stack s type page_ok)) c);
    [reflexivity | apply lookup_insert_eq | reflexivity].
Qed.

Lemma fresh_not_queued s c : queue_ok s c -> fresh (dom (heap s)) ∉ task_queue s c.
Proof.
  intros Hok. apply queue_ok_not_live; [done|].
  apply not_elem_of_dom, is_fresh.
Qed.

Lemma queue_ok_submitted s name func arg type page_ok c :
  queue_ok s c -> queue_ok (submitted_state s name func arg type page_ok c) c.
Proof.
  intros Hok. pose proof (fresh_not_queued s c Hok) as Hfresh.
  destruct Hok as [Hnd Hall].
  assert (Hq : task_queue (submitted_state s name func arg type page_ok c) c =
               task_queue s c ++ [fresh (dom (heap s))]).
  { unfold task_queue at 1; cbn. rewrite lookup_insert_eq. reflexivity. }
  split; rewrite Hq.
  - apply NoDup_app. split; [done|]. split; [|apply NoDup_singleton].
    intros x Hx ->%list_elem_of_singleton. done.
  - apply Forall_app. split.
    + rewrite Forall_forall in *. intros x Hx. specialize (Hall x Hx).
      unfold queued_ok in *; cbn.
      rewrite insert_insert_eq, lookup_insert_ne; [exact Hall|].
      intros <-. done.
    + apply Forall_singleton. unfold queued_ok; cbn.
      rewrite lookup_insert_eq. cbn. auto.
Qed.


(** ** Well-formed queues are an invariant *)

Lemma queue_ok_body_state_any s c c' p t :
  heap s !! p = Some t -> queued_ok s c p -> queue_ok s c' ->
  queue_ok (body_state s p c t) c'.
Proof.
  intros Hp Hq Hok'. destruct (decide (c' = c)) as [->|Hne].
  { apply queue_ok_body_state; done. }
  destruct Hok' as [Hnd Hall]. rewrite Forall_forall in Hall.
  assert (Hx : forall x, x ∈ task_queue s c' -> x <> p).
  { intros x Hx ->. apply Hall in Hx. unfold queued_ok in *. rewrite Hp in *.
    destruct Hq as [Hc _], Hx as [Hc' _]. congruence. }
  split; rewrite task_queue_body_state.
  - destruct (task_after t); [done | apply NoDup_filter; done].
  - assert (Hall' : Forall (queued_ok (body_state s p c t) c') (task_queue s c')).
    { apply Forall_forall. intros x Hin. pose proof (Hall x Hin) as Hqx.
      unfold queued_ok in *. rewrite heap_body_state, decide_False by auto. done. }
    destruct (task_after t); [done|].
    apply Forall_forall. intros x [_ Hin]%list_elem_of_filter.
    rewrite Forall_forall in Hall'. auto.
Qed.

Lemma walk_keeps c c' l :
  forall s, queue_ok s c -> queue_ok s c' -> NoDup l -> l ⊆ task_queue s c ->
    queue_ok (final (list_for_each_entry_safe run_tasks_body l s)) c'.
Proof.
  induction l as [|p l IH]; intros s Hok Hok' Hnd Hsub; [exact Hok'|].
  apply NoDup_cons in Hnd as [Hpl Hnd].
  assert (Hpq : p ∈ task_queue s c) by (apply Hsub, elem_of_cons; auto).
  assert (Hq : queued_ok s c p).
  { destruct Hok as [_ Hall]. rewrite Forall_forall in Hall. auto. }
  pose proof Hq as Hq'. unfold queued_ok in Hq'.
  destruct (heap s !! p) as [t|] eqn:Hp; [|done]. destruct Hq' as [Hc Hst].
  cbn [list_for_each_entry_safe]. unfold bind.
  rewrite (run_tasks_body_ok s c p t Hp Hc Hst).
  apply IH; try done.
  - apply queue_ok_body_state; done.
  - apply queue_ok_body_state_any; done.
  - intros x Hx. rewrite task_queue_body_state.
    assert (x ∈ task_queue s c) by (apply Hsub, elem_of_cons; auto).
    destruct (task_after t); [done|].
    apply list_elem_of_filter. split; [|done]. intros ->. done.
Qed.

Lemma run_tasks_loop_keeps c c' fuel :
  forall s, queue_ok s c -> queue_ok s c' ->
    queue_ok (final (run_tasks_loop fuel c s)) c' /\ good (run_tasks_loop fuel c s).
Proof.
  induction fuel as [|fuel IH]; intros s Hok Hok'; [split; [exact Hok' | exact I]|].
  pose proof (walk_keeps c c' (task_queue s c) s Hok Hok' (proj1 Hok)) as Hk'.
  pose proof (walk_keeps c c (task_queue s c) s Hok Hok (proj1 Hok)) as Hk.
  destruct (walk_ok c (task_queue s c) s Hok (proj1 Hok)) as (s1 & Hrun & _); [done|].
  rewrite Hrun in Hk, Hk'. cbn [final] in Hk, Hk'.
  cbn [run_tasks_loop]. unfold bind, get_queue. rewrite Hrun.
  destruct (task_queue s1 c) eqn:Hq1.
  - split; [apply Hk'; done | exact I].
  - apply IH; [apply Hk | apply Hk']; done.
Qed.

Lemma run_tasks_keeps c c' fuel s :
  queue_ok s c -> queue_ok s c' ->
  queue_ok (final (run_tasks fuel c s)) c' /\ good (run_tasks fuel c s).
Proof.
  intros Hok Hok'. rewrite run_tasks_unfold.
  destruct (run_tasks_loop_keeps c c' fuel
              (with_trace (trace s ++ signals_before c) s) Hok Hok') as [Hq Hg].
  destruct (run_tasks_loop _ _ _) as [[] s1|w s1]; split; done.
Qed.

Lemma queue_ok_heap_insert s c p t t' h' :
  heap s !! p = Some t ->
  t_cpu t' = t_cpu t -> t_state t' = t_state t ->
  queue_ok s c ->
  queue_ok (mk_sched (next_tid s) (<[p := t']> (heap s)) (pages s) (queues s) h') c.
Proof.
  intros Hp Hc Hst [Hnd Hall]. split; [exact Hnd|].
  eapply Forall_impl; [exact Hall|]. intros x. unfold queued_ok; cbn.
  destruct (decide (x = p)) as [->|Hne].
  - rewrite lookup_insert_eq, Hp, Hc, Hst. done.
  - rewrite lookup_insert_ne by done. done.
Qed.

Lemma update_keeps s c p f :
  (forall t, t_cpu (f t) = t_cpu t /\ t_state (f t) = t_state t) ->
  queue_ok s c -> queue_ok (final (update p f s)) c.
Proof.
  intros Hf Hok. unfold update, bind, load, store.
  destruct (heap s !! p) as [t|] eqn:Hp; [|exact Hok].
  destruct (Hf t). apply (queue_ok_heap_insert s c p t); done.
Qed.

Lemma new_task_keeps s c name func arg type kzalloc_ok page_ok :
  queue_ok s c ->
  queue_ok (final (new_task name func arg type kzalloc_ok page_ok s)) c.
Proof.
  intros Hok. destruct kzalloc_ok; [|rewrite new_task_fail; exact Hok].
  rewrite new_task_ok. pose proof (fresh_not_queued s c Hok) as Hfresh.
  destruct Hok as [Hnd Hall]. split; [exact Hnd|].
  rewrite Forall_forall in *. intros x Hx. specialize (Hall x Hx).
  unfold queued_ok in *; cbn. rewrite lookup_insert_ne; [exact Hall|].
  intros <-. apply Hfresh. exact Hx.
Qed.

Lemma schedule_task_keeps s c task cpu :
  (forall c', queue_ok s c') ->
  queue_ok (final (schedule_task task cpu s)) c.
Proof.
  intros Hall. pose proof (Hall c) as Hok.
  destruct task as [p|]; [|exact Hok].
  destruct (heap s !! p) as [t|] eqn:Hp;
    [|destruct cpu; unfold schedule_task, get_task_state, bind, load; rewrite Hp;
      exact Hok].
  destruct cpu as [c0|]; [|rewrite (schedule_task_no_cpu _ _ _ Hp); exact Hok].
  destruct (decide (t_state t = TASK_STATE_READY)) as [Hst|Hst];
    [|rewrite (schedule_task_assert _ _ _ c0 Hp Hst); exact Hok].
  rewrite (schedule_task_ok _ _ _ c0 Hp Hst). cbn [final].
  match goal with |- queue_ok ?x _ => set (s' := x) end.
  assert (Hnq : forall c', p ∉ task_queue s c').
  { intros c' Hin. destruct (Hall c') as [_ Hf]. rewrite Forall_forall in Hf.
    apply Hf in Hin. unfold queued_ok in Hin. rewrite Hp, Hst in Hin.
    destruct Hin as [_ [?|?]]; discriminate. }
  destruct Hok as [Hnd Hf]. rewrite Forall_forall in Hf.
  assert (Hold : forall x, x ∈ task_queue s c -> queued_ok s' c x).
  { intros x Hx. unfold queued_ok, s'; cbn. rewrite lookup_insert_ne.
    - apply Hf. exact Hx.
    - intros <-. apply (Hnq c). exact Hx. }
  destruct (decide (c = c0)) as [->|Hne].
  - assert (Hq : task_queue s' c0 = task_queue s c0 ++ [p]).
    { unfold task_queue at 1, s'; cbn. rewrite lookup_insert_eq. done. }
    split; rewrite Hq.
    + apply NoDup_app. split; [done|]. split; [|apply NoDup_singleton].
      intros x Hx ->%list_elem_of_singleton. apply (Hnq c0). exact Hx.
    + apply Forall_app. split; [apply Forall_forall; exact Hold|].
      apply Forall_singleton. unfold queued_ok, s'; cbn.
      rewrite lookup_insert_eq. cbn. auto.
  - assert (Hq : task_queue s' c = task_queue s c).
    { unfold task_queue, s'; cbn. rewrite lookup_insert_ne by done. done. }
    split; rewrite Hq; [exact Hnd | apply Forall_forall; exact Hold].
Qed.

(** In every state that construction, configuration, submission and run
    loops lead to from the initial one, every processor's queue is
    well-formed: the hypothesis [queue_ok] of the theorems on the run loop
    is met wherever the scheduler can get to. *)
Lemma queue_ok_reachable ops :
  forallb is_api ops = true ->
  forall s, (forall c, queue_ok s c) -> forall c, queue_ok (exec_ops ops s) c.
Proof.
  induction ops as [|o ops IH]; intros Hapi s Hs; [exact Hs|].
  cbn in Hapi. apply andb_true_iff in Hapi as [Ho Hops].
  cbn. apply (IH Hops). intros c.
  destruct o as [| |name func arg type kok pok|p v|p g|tk cpu| | |fuel cpu|];
    try discriminate; cbn [exec_op].
  - unfold bind. pose proof (new_task_keeps s c name func arg type kok pok (Hs c)).
    destruct (new_task _ _ _ _ _ _ s); done.
  - apply update_keeps; [intros; split; reflexivity | apply Hs].
  - apply update_keeps; [intros; split; reflexivity | apply Hs].
  - unfold bind. pose proof (schedule_task_keeps s c tk cpu Hs).
    destruct (schedule_task _ _ s); done.
  - apply run_tasks_keeps; apply Hs.
Qed.

Lemma queue_ok_init c : queue_ok init_tasks c.
Proof. split; [apply NoDup_nil_2 | apply Forall_nil_2]. Qed.

(** ** The state machine *)

Lemma legal_app tr1 tr2 : legal_trace tr1 -> legal_trace tr2 -> legal_trace (tr1 ++ tr2).
Proof.
  induction 1; intros H2; cbn;
    [done | apply legal_cons; auto | apply legal_recycle; auto].
Qed.

Lemma legal_trace_lookup tr :
  legal_trace tr ->
  forall i p a b,
    tr !! i = Some (EvTransition p a b) ->
    a = b \/ state_index b = S (state_index a) \/
    (a = TASK_STATE_DONE /\ b = TASK_STATE_SCHEDULED /\
     exists j r, i = S j /\ tr !! j = Some (EvRepeatSwitch p r) /\
                 r <> TASK_REPEAT_ONCE).
Proof.
  induction 1 as [|e tr He Htr IH|q r tr Hr Htr IH]; intros i p a b Hi.
  - rewrite lookup_nil in Hi. discriminate.
  - destruct i as [|i]; cbn in Hi.
    + injection Hi as ->. destruct He; auto.
    + destruct (IH i p a b Hi) as [?|[?|(? & ? & j & r & -> & Hj & Hr)]]; auto.
      right; right. split_and!; try done. exists (S j), r. auto.
  - destruct i as [|[|i]]; cbn in Hi.
    + discriminate.
    + injection Hi as <-. right; right. split_and!; try done.
      exists 0, r. auto.
    + destruct (IH i p a b Hi) as [?|[?|(? & ? & j & r' & -> & Hj & Hr')]]; auto.
      right; right. split_and!; try done. exists (S (S j)), r'. auto.
Qed.

Lemma emits_legal_bind {A B} (m : M A) (k : A -> M B) :
  emits_legal m -> (forall a, emits_legal (k a)) -> emits_legal (bind m k).
Proof.
  intros Hm Hk s. destruct (Hm s) as (new1 & Htr1 & Hl1).
  unfold bind. destruct (m s) as [a s1|w s1]; cbn in *.
  - destruct (Hk a s1) as (new2 & Htr2 & Hl2).
    exists (new1 ++ new2). rewrite Htr2, Htr1, app_assoc.
    split; [reflexivity | apply legal_app; done].
  - eauto.
Qed.

Lemma emits_legal_ret {A} (a : A) : emits_legal (ret a).
Proof. intros s. exists []. rewrite app_nil_r. split; [reflexivity | constructor]. Qed.

Lemma legal_silent {A} (m : M A) s :
  trace (final (m s)) = trace s ->
  exists new, trace (final (m s)) = trace s ++ new /\ legal_trace new.
Proof. intros H. exists []. rewrite app_nil_r. split; [done | constructor]. Qed.

Ltac legal_list :=
  repeat first
    [ apply legal_nil
    | apply legal_recycle; [assumption|]
    | apply legal_cons; [cbn; auto; fail|] ].

Lemma create_task_legal ok : emits_legal (create_task ok).
Proof.
  intros s. destruct ok.
  - rewrite create_task_ok. cbn. eexists. split; [reflexivity|]. legal_list.
  - rewrite create_task_fail. cbn. eexists. split; [reflexivity|]. legal_list.
Qed.

Lemma index_le_ready st :
  state_index st <= state_index TASK_STATE_READY ->
  st = TASK_STATE_NEW \/ st = TASK_STATE_READY.
Proof. destruct st; cbn; intros; auto; lia. Qed.

Lemma prepare_task_legal task name func arg type page_ok :
  emits_legal (prepare_task task name func arg type page_ok).
Proof.
  intros s. destruct task as [p|]; [|apply legal_silent; reflexivity].
  destruct (heap s !! p) as [t|] eqn:Hp.
  - destruct (le_lt_dec (state_index (t_state t)) (state_index TASK_STATE_READY))
      as [Hst|Hst].
    + assert (Hpl : plain_event (EvTransition p (t_state t) TASK_STATE_READY)).
      { destruct (index_le_ready _ Hst) as [->| ->]; cbn; auto. }
      cbn in Hpl.
      destruct (Z.eq_dec type TASK_TYPE_USER) as [->|Hty].
      * rewrite (prepare_task_user _ _ _ _ _ _ _ Hp Hst).
        destruct page_ok; cbn; (eexists; split; [reflexivity|]); legal_list.
      * rewrite (prepare_task_kernel _ _ _ _ _ _ _ _ Hp Hst Hty). cbn.
        eexists; split; [reflexivity|]. legal_list.
    + rewrite (prepare_task_assert _ _ _ _ _ _ _ _ Hp Hst).
      apply legal_silent; reflexivity.
  - apply legal_silent. unfold prepare_task, get_task_state, bind, load.
    rewrite Hp. reflexivity.
Qed.

Lemma new_task_legal name func arg type kzalloc_ok page_ok :
  emits_legal (new_task name func arg type kzalloc_ok page_ok).
Proof.
  intros s. destruct kzalloc_ok.
  - rewrite new_task_ok. cbn. eexists. split; [reflexivity|].
    destruct (type =? TASK_TYPE_USER)%Z; cbn; legal_list.
  - rewrite new_task_fail. cbn. eexists. split; [reflexivity|]. legal_list.
Qed.

Lemma update_legal p f : emits_legal (update p f).
Proof.
  intros s. apply legal_silent. unfold update, bind, load, store.
  destruct (heap s !! p); reflexivity.
Qed.

Lemma schedule_task_legal task cpu : emits_legal (schedule_task task cpu).
Proof.
  intros s. destruct task as [p|]; [|apply legal_silent; reflexivity].
  destruct cpu as [c|].
  - destruct (heap s !! p) as [t|] eqn:Hp.
    + destruct (decide (t_state t = TASK_STATE_READY)) as [Hst|Hst].
      * rewrite (schedule_task_ok _ _ _ c Hp Hst). cbn.
        eexists. split; [reflexivity|]. legal_list.
      * rewrite (schedule_task_assert _ _ _ c Hp Hst). apply legal_silent; reflexivity.
    + apply legal_silent. unfold schedule_task, get_task_state, bind, load.
      rewrite Hp. reflexivity.
  - destruct (heap s !! p) as [t|] eqn:Hp.
    + rewrite (schedule_task_no_cpu _ _ _ Hp). cbn.
      eexists. split; [reflexivity|]. legal_list.
    + apply legal_silent. unfold schedule_task, bind, load. rewrite Hp. reflexivity.
Qed.

Lemma run_task_legal task : emits_legal (run_task task).
Proof.
  intros s. destruct task as [p|]; [|apply legal_silent; reflexivity].
  destruct (heap s !! p) as [t|] eqn:Hp.
  - destruct (decide (t_state t = TASK_STATE_SCHEDULED)) as [Hst|Hst].
    + destruct (t_cpu t) as [c|] eqn:Hc.
      * rewrite (run_task_ok _ _ _ c Hp Hst Hc). cbn.
        eexists. split; [reflexivity|]. unfold run_events.
        destruct (_ =? 0)%Z; cbn; legal_list.
      * eexists. split; [apply (run_task_no_cpu s p t Hp Hst Hc)|].
        destruct (_ =? 0)%Z; legal_list.
    + rewrite (run_task_hang _ _ _ Hp Hst). apply legal_silent; reflexivity.
  - apply legal_silent. unfold run_task, wait_for_task_state, get_task_state, bind, load.
    rewrite Hp. reflexivity.
Qed.

Lemma destroy_task_legal task : emits_legal (destroy_task task).
Proof.
  intros s. destruct task as [p|]; [|apply legal_silent; reflexivity].
  destruct (heap s !! p) as [t|] eqn:Hp.
  - destruct (t_cpu t) as [c|] eqn:Hc.
    + rewrite (destroy_task_ok _ _ _ c Hp Hc). cbn.
      eexists. split; [reflexivity|]. unfold destroy_events.
      destruct (t_stack t); cbn; legal_list.
    + rewrite (destroy_task_no_cpu _ _ _ Hp Hc). apply legal_silent; reflexivity.
  - apply legal_silent. unfold destroy_task, bind, load. rewrite Hp. reflexivity.
Qed.

Lemma process_task_repeat_legal p s t :
  heap s !! p = Some t -> t_state t = TASK_STATE_DONE ->
  exists new, trace (final (process_task_repeat p s)) = trace s ++ new /\
              legal_trace new.
Proof.
  intros Hp Hst.
  destruct (Z.eq_dec (t_repeat t) TASK_REPEAT_ONCE) as [Hr|Hr].
  - destruct (t_cpu t) as [c|] eqn:Hc.
    + rewrite (process_task_repeat_once _ _ _ c Hp Hr Hc). cbn.
      eexists. split; [reflexivity|]. unfold destroy_events.
      destruct (t_stack t); cbn; legal_list.
    + exists [EvRepeatSwitch p (t_repeat t)]. split; [|legal_list].
      unfold process_task_repeat, bind, load, emit, task_cpu. rewrite Hp.
      rewrite Hr, Z.eqb_refl, Hc. reflexivity.
  - rewrite (process_task_repeat_again _ _ _ Hp Hr), Hst. cbn.
    eexists. split; [reflexivity|]. legal_list.
Qed.

Lemma run_tasks_body_legal p : emits_legal (run_tasks_body p).
Proof.
  intros s. unfold run_tasks_body, bind at 1, load at 1.
  destruct (heap s !! p) as [t|] eqn:Hp; [|apply legal_silent; reflexivity].
  destruct (t_state t) eqn:Hst; try (apply legal_silent; reflexivity).
  - apply run_task_legal.
  - eapply process_task_repeat_legal; done.
Qed.

Lemma walk_legal l : emits_legal (list_for_each_entry_safe run_tasks_body l).
Proof.
  induction l as [|p l IH]; cbn [list_for_each_entry_safe].
  - apply emits_legal_ret.
  - apply emits_legal_bind; [apply run_tasks_body_legal | intros _; exact IH].
Qed.

Lemma get_queue_legal c : emits_legal (get_queue c).
Proof. intros s. apply legal_silent. reflexivity. Qed.

Lemma emit_plain_legal e : plain_event e -> emits_legal (emit e).
Proof. intros He s. exists [e]. split; [reflexivity | legal_list]. Qed.

Lemma halt_legal {A} w : emits_legal (@halt A w).
Proof. intros s. apply legal_silent. reflexivity. Qed.

Lemma run_tasks_loop_legal fuel c : emits_legal (run_tasks_loop fuel c).
Proof.
  induction fuel as [|fuel IH]; cbn [run_tasks_loop]; [apply halt_legal|].
  apply emits_legal_bind; [apply get_queue_legal|]. intros q.
  apply emits_legal_bind; [apply walk_legal|]. intros _.
  apply emits_legal_bind; [apply get_queue_legal|]. intros [|? ?].
  - apply emits_legal_ret.
  - exact IH.
Qed.

Lemma run_tasks_legal fuel c : emits_legal (run_tasks fuel c).
Proof.
  unfold run_tasks.
  repeat (apply emits_legal_bind; [|intros _]);
    try (destruct (is_cpu_bsp c));
    first [apply emits_legal_ret | apply emit_plain_legal; exact I
          | apply run_tasks_loop_legal].
Qed.

Lemma exec_op_legal o : emits_legal (exec_op o).
Proof.
  destruct o; cbn [exec_op];
    try (apply emits_legal_bind; [|intros _; apply emits_legal_ret]).
  - apply create_task_legal.
  - apply prepare_task_legal.
  - apply new_task_legal.
  - apply update_legal.
  - apply update_legal.
  - apply schedule_task_legal.
  - apply run_task_legal.
  - apply run_tasks_body_legal.
  - apply run_tasks_legal.
  - apply destroy_task_legal.
Qed.

Lemma exec_ops_legal ops :
  forall s, exists new, trace (exec_ops ops s) = trace s ++ new /\ legal_trace new.
Proof.
  induction ops as [|o ops IH]; intros s.
  - exists []. rewrite app_nil_r. split; [reflexivity | constructor].
  - cbn. destruct (exec_op_legal o s) as (new1 & Htr1 & Hl1).
    destruct (IH (final (exec_op o s))) as (new2 & Htr2 & Hl2).
    exists (new1 ++ new2). unfold exec_ops in Htr2. rewrite Htr2, Htr1, app_assoc.
    split; [reflexivity | apply legal_app; done].
Qed.

(** C2: in the trace of any sequence of scheduler operations, started in
    any state, every write of a task state either leaves the state as it
    is or moves it to the next state in the order NEW, READY, SCHEDULED,
    RUNNING, DONE, or is DONE -> SCHEDULED; and a DONE -> SCHEDULED write
    comes directly after [process_task_repeat] switched on a repeat value
    of that task other than ONCE (that is, LOOP or a finite count). *)
Theorem state_machine_order (ops : list sched_op) (s : sched) (i p : nat)
    (a b : task_state) :
  drop (length (trace s)) (trace (exec_ops ops s)) !! i = Some (EvTransition p a b) ->
  a = b \/ state_index b = S (state_index a) \/
  (a = TASK_STATE_DONE /\ b = TASK_STATE_SCHEDULED /\
   exists j r, i = S j /\
     drop (length (trace s)) (trace (exec_ops ops s)) !! j
       = Some (EvRepeatSwitch p r) /\
     r <> TASK_REPEAT_ONCE).
Proof.
  destruct (exec_ops_legal ops s) as (new & Htr & Hl).
  rewrite Htr, drop_app_length. apply legal_trace_lookup. exact Hl.
Qed.

(** ** Waiting for a group *)

Lemma all_done_false pass :
  all_done pass = false -> Exists (fun e => e.2 <> TASK_STATE_DONE) pass.
Proof.
  induction pass as [|e pass IH]; cbn; [discriminate|].
  destruct (bool_decide_reflect (e.2 = TASK_STATE_DONE)); cbn.
  - intros H. apply Exists_cons_tl, IH, H.
  - intros _. apply Exists_cons_hd. done.
Qed.

Lemma wait_scan_spec obs fuel s group q :
  forall clock busy seen clock' busy' seen',
    wait_scan obs fuel s group q clock busy seen = Some (clock', busy', seen') ->
    exists new,
      seen' = seen ++ new /\
      new.*1 = List.filter (in_group s group) q /\
      busy' = busy || negb (all_done new).
Proof.
  induction q as [|p q IH]; intros clock busy seen clock' busy' seen' H; cbn in H.
  - injection H as <- <- <-. exists []. rewrite app_nil_r, orb_false_r. done.
  - destruct (heap s !! p) as [t|] eqn:Hp; [|discriminate].
    cbn [List.filter]. destruct (in_group s group p) eqn:Hg.
    + destruct (decide (obs clock p = TASK_STATE_DONE)) as [Hd|Hd].
      * apply IH in H as (new & -> & Hfst & ->).
        exists ((p, obs clock p) :: new). rewrite <- app_assoc. cbn.
        rewrite Hfst, bool_decide_eq_true_2 by done. done.
      * destruct (wait_for_task_state_obs _ _ _ _ _) as [clock1|]; [|discriminate].
        apply IH in H as (new & -> & Hfst & ->).
        exists ((p, obs clock p) :: new). rewrite <- app_assoc. cbn.
        rewrite Hfst, bool_decide_eq_false_2, orb_true_r by done. done.
    + apply IH in H. exact H.
Qed.

(** A walk that came to its end dereferenced live task objects only. *)
Lemma wait_scan_live obs fuel s group q :
  forall clock busy seen r,
    wait_scan obs fuel s group q clock busy seen = Some r ->
    Forall (fun p => is_Some (heap s !! p)) q.
Proof.
  induction q as [|p q IH]; intros clock busy seen r H; cbn in H; [constructor|].
  destruct (heap s !! p) as [t|] eqn:Hp; [|discriminate].
  apply Forall_cons. split; [rewrite Hp; eauto|].
  destruct (in_group s group p); [|eauto].
  destruct (decide _); [eauto|].
  destruct (wait_for_task_state_obs _ _ _ _ _); [eauto | discriminate].
Qed.

Lemma filter_group_all s q :
  Forall (fun p => is_Some (heap s !! p)) q ->
  List.filter (in_group s TASK_GROUP_ALL) q = q.
Proof.
  induction 1 as [|p q [t Hp] _ IH]; [reflexivity|].
  cbn. unfold in_group at 1. rewrite Hp, Z.eqb_refl. cbn. f_equal. exact IH.
Qed.

(** C3: when [wait_for_task_group] returns, the log of its walks ends
    with a walk that let through exactly the entries of the processor's
    queue that match the group (all of them for [TASK_GROUP_ALL]), in
    queue order, and read DONE for each of them; every walk before it
    covered the same entries and read a state other than DONE for at least
    one of them, after which another walk followed. *)
Theorem wait_for_task_group_returns (obs : nat -> nat -> task_state)
    (fuel : nat) (s : sched) (cpu : nat) (group : Z) (clock clock' : nat)
    (log : list (list (nat * task_state))) :
  wait_for_task_group obs fuel s cpu group clock = Some (clock', log) ->
  exists earlier last,
    log = earlier ++ [last] /\
    last.*1 = List.filter (in_group s group) (task_queue s cpu) /\
    Forall (fun e => e.2 = TASK_STATE_DONE) last /\
    Forall (fun pass =>
              pass.*1 = List.filter (in_group s group) (task_queue s cpu) /\
              Exists (fun e => e.2 <> TASK_STATE_DONE) pass) earlier /\
    (group = TASK_GROUP_ALL -> last.*1 = task_queue s cpu).
Proof.
  revert clock clock' log. induction fuel as [|fuel IH]; intros clock clock' log H;
    cbn [wait_for_task_group] in H; [discriminate|].
  destruct (wait_scan _ _ _ _ _ _ _ _) as [[[clock1 busy] seen]|] eqn:Hscan;
    [|discriminate].
  pose proof Hscan as Hlive.
  apply wait_scan_spec in Hscan as (new & Hseen & Hfst & Hbusy).
  cbn in Hseen, Hbusy. subst seen.
  destruct busy.
  - destruct (wait_for_task_group _ _ _ _ _ _) as [[clock2 log2]|] eqn:Hrec;
      [|discriminate].
    injection H as <- <-.
    destruct (IH _ _ _ Hrec) as (earlier & last & -> & Hl1 & Hl2 & He & Hall).
    exists (new :: earlier), last. split_and!; try done.
    apply Forall_cons. split; [|done]. split; [done|].
    symmetry in Hbusy. apply negb_true_iff in Hbusy.
    apply all_done_false. exact Hbusy.
  - injection H as <- <-. exists [], new.
    symmetry in Hbusy. apply negb_false_iff in Hbusy.
    assert (Hd : Forall (fun e => e.2 = TASK_STATE_DONE) new).
    { unfold all_done in Hbusy. rewrite forallb_forall in Hbusy.
      apply Forall_forall. intros e He%list_elem_of_In.
      apply Hbusy in He. apply bool_decide_eq_true in He. done. }
    split_and!; try done.
    intros ->. rewrite Hfst.
    apply filter_group_all. eapply wait_scan_live. exact Hlive.
Qed.

(** With every read returning DONE one walk suffices. *)
Lemma wait_scan_all_done obs fuel s group q :
  Forall (fun p => is_Some (heap s !! p)) q ->
  (forall n p, p ∈ q -> obs n p = TASK_STATE_DONE) ->
  forall clock busy seen,
    exists clock' new,
      wait_scan obs fuel s group q clock busy seen = Some (clock', busy, seen ++ new).
Proof.
  induction 1 as [|p q [t Hp] _ IH]; intros Hobs clock busy seen; cbn.
  - exists clock, []. rewrite app_nil_r. reflexivity.
  - rewrite Hp. destruct (in_group s group p).
    + rewrite decide_True by (apply Hobs, elem_of_cons; auto).
      destruct (IH (fun n x Hx => Hobs n x (proj2 (elem_of_cons _ _ _) (or_intror Hx)))
                   (S clock) busy (seen ++ [(p, obs clock p)])) as (c' & new & ->).
      exists c', ((p, obs clock p) :: new). rewrite <- app_assoc. reflexivity.
    + apply IH. intros n x Hx. apply Hobs, elem_of_cons; auto.
Qed.

Lemma wait_for_task_group_all_done obs fuel s cpu group clock :
  Forall (fun p => is_Some (heap s !! p)) (task_queue s cpu) ->
  (forall n p, p ∈ task_queue s cpu -> obs n p = TASK_STATE_DONE) ->
  exists clock' pass,
    wait_for_task_group obs (S fuel) s cpu group clock = Some (clock', [pass]).
Proof.
  intros Hlive Hobs. cbn [wait_for_task_group].
  destruct (wait_scan_all_done obs (S fuel) s group _ Hlive Hobs clock false [])
    as (c' & new & ->).
  eauto.
Qed.

(** The wait of the sequential machine is the observed one under an
    observation that always returns the stored state. *)
Lemma wait_for_task_state_constant s p t state fuel clock :
  heap s !! p = Some t ->
  (wait_for_task_state (Some p) state s = Ok tt s <->
   wait_for_task_state_obs (fun _ _ => t_state t) (S fuel) p state clock
     = Some (S clock)) /\
  (wait_for_task_state (Some p) state s = Stop Hang s <->
   wait_for_task_state_obs (fun _ _ => t_state t) (S fuel) p state clock = None).
Proof.
  intros Hp. unfold wait_for_task_state, get_task_state, bind, load, ret, halt.
  rewrite Hp.
  assert (Hnone : t_state t <> state ->
            forall f c, wait_for_task_state_obs (fun _ _ => t_state t) f p state c = None).
  { intros Hne f. induction f as [|f IH]; intros c; cbn; [reflexivity|].
    rewrite decide_False by done. apply IH. }
  cbn [wait_for_task_state_obs].
  destruct (decide (t_state t = state)) as [Hs|Hs].
  - split; split; intros; done.
  - rewrite (Hnone Hs). split; split; intros; done.
Qed.

(** ** Destruction without submission, and the unchecked stack *)


(** C7 (the code at the failing input): when the page allocator has no
    page, [new_task] still returns an unprivileged task in state READY,
    and its stack is null; submitted, run and retired, the task function is
    entered through [enter_usermode] with the null stack, and the task
    object is freed without any page release. *)
Theorem user_task_null_stack (s : sched) (name : string) (func arg : Z) (c : nat) :
  let p := fresh (dom (heap s)) in
  let m := run_and_retire name func arg TASK_TYPE_USER true false c in
  (exists s1 t,
      new_task name func arg TASK_TYPE_USER true false s = Ok (Some p) s1 /\
      heap s1 !! p = Some t /\
      t_type t = TASK_TYPE_USER /\ t_state t = TASK_STATE_READY /\
      t_stack t = None) /\
  (exists s4,
      m s = Ok tt s4 /\
      heap s4 !! p = None /\
      EvCall p func arg ∈ emitted m s /\
      (EvFinishedMsg p c (enter_usermode func arg None) 1) ∈ emitted m s /\
      EvKfree p ∈ emitted m s /\
      forall pg, EvPutPage pg ∉ emitted m s).
Proof.
  intros p m.
  set (s1 := new_task_state s name func arg TASK_TYPE_USER false).
  set (t := prepared (created_task (next_tid s)) name func arg TASK_TYPE_USER None).
  assert (Hstack : new_task_stack s TASK_TYPE_USER false = None).
  { unfold new_task_stack. rewrite Z.eqb_refl. reflexivity. }
  assert (H1 : heap s1 !! p = Some t).
  { unfold s1, new_task_state. rewrite Hstack. apply lookup_insert_eq. }
  split.
  - exists s1, t. rewrite new_task_ok. split_and!; done.
  - set (t2 := with_state TASK_STATE_SCHEDULED (with_cpu (Some c) t)).
    assert (Hm : exists s4,
               m s = Ok tt s4 /\ heap s4 !! p = None /\
               trace s4 =
                 trace s ++
                   [EvKzalloc (Some p);
                    EvTransition p TASK_STATE_NEW TASK_STATE_NEW;
                    EvGetPage None;
                    EvTransition p TASK_STATE_NEW TASK_STATE_READY;
                    EvSchedulingMsg c p TASK_REPEAT_ONCE; EvSpinLock c;
                    EvListAddTail c p;
                    EvTransition p TASK_STATE_READY TASK_STATE_SCHEDULED;
                    EvSpinUnlock c;
                    EvTransition p TASK_STATE_SCHEDULED TASK_STATE_RUNNING;
                    EvCall p func arg;
                    EvTransition p TASK_STATE_RUNNING TASK_STATE_DONE;
                    EvRepeatSwitch p TASK_REPEAT_ONCE;
                    EvFinishedMsg p c (enter_usermode func arg None) 1;
                    EvSpinLock c; EvListUnlink p; EvSpinUnlock c; EvKfree p]).
    { unfold m, run_and_retire, bind. rewrite new_task_ok. fold p s1.
      rewrite (schedule_task_ok s1 p t c H1 eq_refl).
      match goal with |- context [run_task _ ?x] => set (s2 := x) end.
      assert (H2 : heap s2 !! p = Some t2) by apply lookup_insert_eq.
      rewrite (run_task_ok s2 p t2 c H2 eq_refl eq_refl).
      match goal with |- context [run_tasks_body _ ?x] => set (s3 := x) end.
      assert (H3 : heap s3 !! p = Some (ran t2)) by apply lookup_insert_eq.
      rewrite (run_tasks_body_ok s3 c p (ran t2) H3 eq_refl (or_intror eq_refl)).
      eexists. split; [reflexivity|].
      assert (Hres : task_result t2 = enter_usermode func arg None).
      { unfold task_result; cbn. rewrite Z.eqb_refl. reflexivity. }
      unfold body_state, task_after, body_events, destroy_events, destroyed; cbn.
      rewrite !Z.eqb_refl, Hres. cbn. split; [apply lookup_delete_eq|].
      rewrite <- !app_assoc, Hstack. reflexivity. }
    destruct Hm as (s4 & Hm & Hgone & Htr). exists s4.
    assert (Hem : emitted m s = drop (length (trace s)) (trace s4))
      by (unfold emitted; rewrite Hm; reflexivity).
    rewrite Hem, Htr, drop_app_length.
    split_and!; try done.
    + apply list_elem_of_In; cbn; tauto.
    + apply list_elem_of_In; cbn; tauto.
    + apply list_elem_of_In; cbn; tauto.
    + intros pg Hin. apply list_elem_of_In in Hin. cbn in Hin.
      repeat (destruct Hin as [Hin|Hin]; [discriminate|]). exact Hin.
Qed.

(** ** Lookup by name *)

Lemma get_task_by_name_walk_spec name s q :
  Forall (fun p => is_Some (heap s !! p)) q ->
  exists r,
    get_task_by_name_walk name q s = Ok r s /\
    match r with
    | Some p =>
        exists q1 q2,
          q = q1 ++ p :: q2 /\ name_of s p = Some name /\
          forall x, x ∈ q1 -> name_of s x <> Some name
    | None => forall x, x ∈ q -> name_of s x <> Some name
    end.
Proof.
  induction 1 as [|p q [t Hp] _ IH]; cbn [get_task_by_name_walk].
  - exists None. split; [reflexivity|]. intros x Hx. inversion Hx.
  - unfold bind, load. rewrite Hp. unfold string_equal.
    destruct (String.eqb_spec (t_name t) name) as [Hn|Hn].
    + exists (Some p). split; [reflexivity|]. exists [], q.
      split_and!; [reflexivity | unfold name_of; rewrite Hp; cbn; congruence|].
      intros x Hx. inversion Hx.
    + destruct IH as (r & Hr & Hspec). exists r. split; [exact Hr|].
      assert (Hpn : name_of s p <> Some name).
      { unfold name_of. rewrite Hp. cbn. congruence. }
      destruct r as [p'|].
      * destruct Hspec as (q1 & q2 & -> & Hname & Hbefore).
        exists (p :: q1), q2. split_and!; [reflexivity | exact Hname|].
        intros x [->|Hx]%elem_of_cons; auto.
      * intros x [->|Hx]%elem_of_cons; auto.
Qed.

(** X1: on a well-formed queue [get_task_by_name] changes nothing and
    returns the first entry, in queue order, whose name equals the one asked
    for; it returns no task exactly when no entry has that name. *)
Theorem get_task_by_name_first (s : sched) (c : nat) (name : string) :
  queue_ok s c ->
  exists r,
    get_task_by_name c name s = Ok r s /\
    match r with
    | Some p =>
        exists q1 q2,
          task_queue s c = q1 ++ p :: q2 /\ name_of s p = Some name /\
          forall x, x ∈ q1 -> name_of s x <> Some name
    | None => forall x, x ∈ task_queue s c -> name_of s x <> Some name
    end.
Proof.
  intros [_ Hall]. unfold get_task_by_name, bind, get_queue.
  apply get_task_by_name_walk_spec.
  eapply Forall_impl; [exact Hall|]. intros x. apply queued_ok_live.
Qed.

(** X2: a task that was just constructed and submitted under a name that no
    entry of the processor's queue carries is the task that a lookup of
    the name on that processor returns. *)
Theorem get_task_by_name_submitted (s : sched) (c : nat) (name : string)
    (func arg type : Z) (page_ok : bool) :
  queue_ok s c ->
  (forall x, x ∈ task_queue s c -> name_of s x <> Some name) ->
  (task <- new_task name func arg type true page_ok ;;
   schedule_task task (Some c) ;;
   get_task_by_name c name) s
  = Ok (Some (fresh (dom (heap s)))) (submitted_state s name func arg type page_ok c).
Proof.
  intros Hok Hnone.
  pose proof (construct_submit_ok s name func arg type page_ok c) as Hcs.
  set (s2 := submitted_state s name func arg type page_ok c) in *.
  set (p := fresh (dom (heap s))).
  assert (Hrun : (task <- new_task name func arg type true page_ok ;;
                  schedule_task task (Some c) ;; get_task_by_name c name) s
                 = get_task_by_name c name s2).
  { unfold bind in *.
    destruct (new_task name func arg type true page_ok s) as [task s1|]; [|done].
    destruct (schedule_task task (Some c) s1); [|done].
    injection Hcs as _ ->. reflexivity. }
  rewrite Hrun.
  destruct (get_task_by_name_first s2 c name (queue_ok_submitted _ _ _ _ _ _ _ Hok))
    as (r & Hr & Hspec).
  rewrite Hr. f_equal.
  assert (Hq : task_queue s2 c = task_queue s c ++ [p]).
  { unfold task_queue at 1, s2; cbn. rewrite lookup_insert_eq. reflexivity. }
  assert (Hold : forall x, x ∈ task_queue s c -> name_of s2 x = name_of s x).
  { intros x Hx. unfold name_of, s2; cbn.
    rewrite insert_insert_eq, lookup_insert_ne; [reflexivity|].
    intros <-. apply (fresh_not_queued s c Hok). exact Hx. }
  assert (Hnew : name_of s2 p = Some name).
  { unfold name_of, s2; cbn. rewrite lookup_insert_eq. reflexivity. }
  destruct r as [p'|].
  - destruct Hspec as (q1 & q2 & Hsplit & Hname & Hbefore). rewrite Hq in Hsplit.
    assert (Hin : p' ∈ task_queue s c ++ [p]).
    { rewrite Hsplit. apply elem_of_app. right. apply elem_of_cons. auto. }
    apply elem_of_app in Hin as [Hin|Hin].
    + exfalso. apply (Hnone p' Hin). rewrite <- Hold by done. exact Hname.
    + apply list_elem_of_singleton in Hin. congruence.
  - exfalso. apply (Hspec p); [|exact Hnew].
    rewrite Hq. apply elem_of_app. right. apply list_elem_of_singleton. done.
Qed.

(** ** Submitting twice *)

(** X3: once [schedule_task] has queued a task, a second submission of the
    same task to any processor halts on the assertion of the READY state
    and changes nothing, so the task is never linked into a queue twice;
    the missing-target check comes first, so with a null processor the call
    still returns [-EEXIST]. *)
Theorem schedule_task_twice (s : sched) (p : nat) (t : task) (c : nat) :
  heap s !! p = Some t ->
  t_state t = TASK_STATE_READY ->
  exists s1,
    schedule_task (Some p) (Some c) s = Ok 0%Z s1 /\
    (forall c', schedule_task (Some p) (Some c') s1 = Stop Panic s1) /\
    schedule_task (Some p) None s1
      = Ok (- EEXIST)%Z (with_trace (trace s1 ++ [EvWarning p]) s1).
Proof.
  intros Hp Hst. eexists. split; [apply (schedule_task_ok _ _ _ c Hp Hst)|].
  match goal with |- context [schedule_task _ _ ?x = Stop _ _] => set (s1 := x) end.
  assert (Hp1 : heap s1 !! p
                = Some (with_state TASK_STATE_SCHEDULED (with_cpu (Some c) t)))
    by apply lookup_insert_eq.
  split.
  - intros c'. apply (schedule_task_assert s1 p _ c' Hp1). discriminate.
  - apply (schedule_task_no_cpu s1 p _ Hp1).
Qed.

(** ** What the run loop leaves behind *)

Lemma task_after_stack t t' : task_after t = Some t' -> t_stack t' = t_stack t.
Proof.
  unfold task_after. destruct (t_state t).
  - intros [= <-]. reflexivity.
  - intros [= <-]. reflexivity.
  - intros [= <-]. reflexivity.
  - intros [= <-]. reflexivity.
  - destruct (_ =? _)%Z; [discriminate|]. intros [= <-].
    unfold recycled. destruct (_ =? _)%Z; reflexivity.
Qed.

Lemma run_tasks_loop_shrinks c fuel s :
  queue_ok s c ->
  pages (final (run_tasks_loop fuel c s)) ⊆ pages s /\
  forall x, heap s !! x = None -> heap (final (run_tasks_loop fuel c s)) !! x = None.
Proof.
  intros Hok. split.
  - destruct (loop_gone c (fresh (dom (heap s))) fuel s Hok) as (_ & _ & _ & H & _).
    + apply not_elem_of_dom, is_fresh.
    + exact H.
  - intros x Hx. destruct (loop_gone c x fuel s Hok Hx) as (_ & _ & H & _). exact H.
Qed.

Lemma run_tasks_loop_returns c fuel :
  forall s s',
    queue_ok s c -> run_tasks_loop fuel c s = Ok tt s' ->
    task_queue s' c = [] /\
    (forall p, p ∈ task_queue s c -> heap s' !! p = None) /\
    (forall p t pg, p ∈ task_queue s c -> heap s !! p = Some t ->
                    t_stack t = Some pg -> pg ∉ pages s').
Proof.
  induction fuel as [|fuel IH]; intros s s' Hok Hrun; [discriminate|].
  destruct (loop_step c fuel s Hok) as (s1 & Hpost & Hloop).
  rewrite Hloop in Hrun. clear Hloop.
  pose proof Hpost as (Hok1 & Hh & Hq & _ & Hpg & Hfree).
  assert (Hent : forall p, p ∈ task_queue s c ->
            exists t, heap s !! p = Some t /\ heap s1 !! p = task_after t /\
                      (is_Some (task_after t) -> p ∈ task_queue s1 c)).
  { intros p Hin. destruct Hok as [_ Hall]. rewrite Forall_forall in Hall.
    destruct (queued_ok_live _ _ _ (Hall p Hin)) as [t Ht]. exists t.
    split; [exact Ht|]. rewrite Hh, decide_True, Ht by done.
    split; [reflexivity|]. intros Hs. rewrite Hq. apply list_elem_of_filter.
    rewrite Hh, decide_True, Ht by done. done. }
  destruct (task_queue s1 c) as [|x1 q1] eqn:Hq1.
  - injection Hrun as <-. split; [exact Hq1|]. split.
    + intros p Hin. destruct (Hent p Hin) as (t & Ht & Ht1 & Hin1).
      destruct (task_after t) eqn:Ha; [|exact Ht1].
      exfalso. specialize (Hin1 (ltac:(eauto))). inversion Hin1.
    + intros p t pg Hin Ht Hs. destruct (Hent p Hin) as (t0 & Ht0 & Ht1 & Hin1).
      rewrite Ht in Ht0. injection Ht0 as <-.
      destruct (task_after t) eqn:Ha.
      * exfalso. specialize (Hin1 (ltac:(eauto))). inversion Hin1.
      * apply (Hfree p t pg); done.
  - rewrite <- Hq1 in *. clear x1 q1 Hq1.
    destruct (IH s1 s' Hok1 Hrun) as (He & Hgone & Hstack).
    destruct (run_tasks_loop_shrinks c fuel s1 Hok1) as [Hsub Hnone].
    rewrite Hrun in Hsub, Hnone. cbn [final] in Hsub, Hnone.
    split; [exact He|]. split.
    + intros p Hin. destruct (Hent p Hin) as (t & Ht & Ht1 & Hin1).
      destruct (task_after t) eqn:Ha; [apply Hgone, Hin1; eauto | apply Hnone, Ht1].
    + intros p t pg Hin Ht Hs. destruct (Hent p Hin) as (t0 & Ht0 & Ht1 & Hin1).
      rewrite Ht in Ht0. injection Ht0 as <-.
      destruct (task_after t) as [t'|] eqn:Ha.
      * apply (Hstack p t' pg); [apply Hin1; eauto | exact Ht1|].
        rewrite (task_after_stack _ _ Ha). exact Hs.
      * intros Hin'. apply Hsub in Hin'. revert Hin'. apply (Hfree p t pg); done.
Qed.

(** X4: [run_tasks] returns only with the processor's queue empty, and
    then every task that was in the queue at the start has been freed and
    the stack page it had has been released; a lookup by name on the
    processor finds nothing. *)
Theorem run_tasks_returns_empty (fuel c : nat) (s s' : sched) :
  queue_ok s c ->
  run_tasks fuel c s = Ok tt s' ->
  task_queue s' c = [] /\
  (forall p, p ∈ task_queue s c -> heap s' !! p = None) /\
  (forall p t pg, p ∈ task_queue s c -> heap s !! p = Some t ->
                  t_stack t = Some pg -> pg ∉ pages s') /\
  (forall name, get_task_by_name c name s' = Ok None s').
Proof.
  intros Hok Hrun. rewrite run_tasks_unfold in Hrun.
  destruct (run_tasks_loop fuel c _) as [[] s1|w s1] eqn:Hloop; [|discriminate].
  injection Hrun as <-.
  destruct (run_tasks_loop_returns c fuel
              (with_trace (trace s ++ signals_before c) s) s1 Hok Hloop)
    as (He & Hgone & Hstack).
  assert (Hq : task_queue (with_trace (trace s1 ++ signals_after c) s1) c = []) by exact He.
  split_and!; [exact Hq | exact Hgone | exact Hstack|].
  intros name. unfold get_task_by_name, bind, get_queue. rewrite Hq. reflexivity.
Qed.

(** ** A task that loops *)

Lemma run_tasks_loop_forever c p fuel :
  TASK_REPEAT_LOOP <> TASK_REPEAT_ONCE ->
  forall s t,
    queue_ok s c -> p ∈ task_queue s c -> heap s !! p = Some t ->
    t_repeat t = TASK_REPEAT_LOOP ->
    exists s' t' new,
      run_tasks_loop fuel c s = Stop OutOfFuel s' /\
      p ∈ task_queue s' c /\
      heap s' !! p = Some t' /\ t_repeat t' = TASK_REPEAT_LOOP /\
      trace s' = trace s ++ new /\
      count (is_call p) new =
        Nat.div2 (fuel + if decide (t_state t = TASK_STATE_SCHEDULED) then 1 else 0) /\
      count (is_kfree p) new = 0.
Proof.
  intros Hne. induction fuel as [|fuel IH]; intros s t Hok Hin Hp Hr.
  - exists s, t, []. cbn [run_tasks_loop]. unfold halt.
    rewrite app_nil_r. split_and!; try done.
    destruct (decide _); reflexivity.
  - destruct (loop_step c fuel s Hok) as (s1 & Hpost & Hloop).
    destruct (walk_post_entry s c s1 p t Hok Hpost Hin Hp)
      as (Hp1 & Hin1 & ev1 & Htr1 & Hc1 & Hk1 & _).
    pose proof Hpost as (Hok1 & _).
    assert (Hst : t_state t = TASK_STATE_SCHEDULED \/ t_state t = TASK_STATE_DONE).
    { destruct Hok as [_ Hall]. rewrite Forall_forall in Hall.
      specialize (Hall p Hin). unfold queued_ok in Hall. rewrite Hp in Hall. tauto. }
    rewrite count_calls_body in Hc1. rewrite count_kfree_body in Hk1.
    rewrite decide_False in Hk1 by (rewrite Hr; intros (_ & _ & ?); done).
    assert (Ha : exists t1, task_after t = Some t1 /\ t_repeat t1 = TASK_REPEAT_LOOP /\
                   (t_state t = TASK_STATE_SCHEDULED -> t_state t1 = TASK_STATE_DONE) /\
                   (t_state t = TASK_STATE_DONE -> t_state t1 = TASK_STATE_SCHEDULED)).
    { unfold task_after. destruct Hst as [Hst|Hst]; rewrite Hst.
      - exists (ran t). split_and!; try done; intros; discriminate.
      - apply Z.eqb_neq in Hne. rewrite Hr, Hne. exists (recycled t).
        unfold recycled. rewrite Hr, Z.eqb_refl. split_and!; try done;
          intros; discriminate. }
    destruct Ha as (t1 & Ha & Hr1 & Hsd & Hds).
    rewrite Ha in Hp1. specialize (Hin1 (ltac:(rewrite Ha; eauto))).
    rewrite Hloop. destruct (task_queue s1 c) as [|x1 q1] eqn:Hq1; [inversion Hin1|].
    rewrite <- Hq1 in *. clear x1 q1 Hq1.
    destruct (IH s1 t1 Hok1 Hin1 Hp1 Hr1)
      as (s' & t' & new & Hrun & Hin' & Hp' & Hr' & Htr' & Hc' & Hk').
    exists s', t', (ev1 ++ new). rewrite Hrun, Htr', Htr1, <- app_assoc, !count_app.
    split_and!; try done; [|lia].
    rewrite Hc1, Hc'. destruct Hst as [Hst|Hst].
    + rewrite (decide_True (P := p = p /\ _)) by done.
      rewrite (decide_False (P := t_state t1 = _)) by (rewrite (Hsd Hst); discriminate).
      rewrite (decide_True (P := t_state t = _)) by done.
      replace (S fuel + 1) with (S (S fuel)) by lia.
      rewrite Nat.add_0_r. reflexivity.
    + rewrite (decide_False (P := p = p /\ _)) by (rewrite Hst; intros [_ ?]; discriminate).
      rewrite (decide_True (P := t_state t1 = _)) by (apply Hds, Hst).
      rewrite (decide_False (P := t_state t = _)) by (rewrite Hst; discriminate).
      rewrite Nat.add_0_r, Nat.add_1_r. reflexivity.
Qed.

(** X5: with a SCHEDULED task of policy LOOP in its queue, [run_tasks]
    does not return, whatever the number of walks it is given: after [fuel]
    walks it is still looping, the task is still queued with policy LOOP,
    was never freed, and has been called once in every second walk. *)
Theorem loop_task_runs_forever (fuel c p : nat) (s : sched) (t : task) :
  TASK_REPEAT_LOOP <> TASK_REPEAT_ONCE ->
  queue_ok s c -> p ∈ task_queue s c -> heap s !! p = Some t ->
  t_state t = TASK_STATE_SCHEDULED -> t_repeat t = TASK_REPEAT_LOOP ->
  exists s' t',
    run_tasks fuel c s = Stop OutOfFuel s' /\
    p ∈ task_queue s' c /\
    heap s' !! p = Some t' /\ t_repeat t' = TASK_REPEAT_LOOP /\
    count (is_call p) (emitted (run_tasks fuel c) s) = Nat.div2 (S fuel) /\
    count (is_kfree p) (emitted (run_tasks fuel c) s) = 0.
Proof.
  intros Hne Hok Hin Hp Hst Hr.
  destruct (run_tasks_loop_forever c p fuel Hne
              (with_trace (trace s ++ signals_before c) s) t Hok Hin Hp Hr)
    as (s' & t' & new & Hrun & Hin' & Hp' & Hr' & Htr & Hc & Hk).
  exists s', t'.
  assert (Hrt : run_tasks fuel c s = Stop OutOfFuel s')
    by (rewrite run_tasks_unfold, Hrun; reflexivity).
  destruct (count_signals (is_call p) c) as [Hcb _]; [done|].
  destruct (count_signals (is_kfree p) c) as [Hkb _]; [done|].
  cbn [with_trace trace] in Htr. rewrite <- app_assoc in Htr.
  assert (Hem : emitted (run_tasks fuel c) s = signals_before c ++ new).
  { apply emitted_extends. rewrite Hrt. exact Htr. }
  rewrite Hem, !count_app, Hcb, Hkb, Hc, Hk, decide_True by done.
  split_and!; try done. rewrite Nat.add_1_r. reflexivity.
Qed.

(** ** Order of execution *)

Lemma called_app tr1 tr2 : called (tr1 ++ tr2) = called tr1 ++ called tr2.
Proof. apply omap_app. Qed.

Lemma called_body_events p c t :
  called (body_events p c t) =
    if bool_decide (t_state t = TASK_STATE_SCHEDULED) then [p] else [].
Proof.
  unfold body_events, run_events, destroy_events.
  destruct (t_state t); cbn;
    try reflexivity.
  - destruct (_ =? 0)%Z; reflexivity.
  - destruct (_ =? _)%Z; [|reflexivity]. destruct (t_stack t); reflexivity.
Qed.

Lemma called_walk_events s c l :
  called (walk_events s c l) = List.filter (is_scheduled s) l.
Proof.
  induction l as [|x l IH]; [reflexivity|].
  rewrite walk_events_cons, called_app, IH. cbn [List.filter].
  unfold is_scheduled at 2. destruct (heap s !! x) as [t|]; [|reflexivity].
  rewrite called_body_events. destruct (bool_decide _); reflexivity.
Qed.

Lemma called_signals c : called (signals_before c) = [] /\ called (signals_after c) = [].
Proof. unfold signals_before, signals_after. destruct (is_cpu_bsp c); done. Qed.

Lemma run_tasks_first_walk fuel c s :
  queue_ok s c ->
  exists rest,
    trace (final (run_tasks (S fuel) c s)) =
      trace s ++ signals_before c ++ walk_events s c (task_queue s c) ++ rest.
Proof.
  intros Hok. rewrite run_tasks_unfold.
  set (s0 := with_trace (trace s ++ signals_before c) s).
  destruct (loop_step c fuel s0 Hok) as (s1 & Hpost & Hloop).
  destruct Hpost as (_ & _ & _ & Htr & _).
  assert (Htr1 : trace s1 = trace s ++ signals_before c
                            ++ walk_events s c (task_queue s c)).
  { rewrite Htr. unfold s0; cbn. rewrite <- app_assoc. reflexivity. }
  rewrite Hloop. destruct (task_queue s1 c) as [|x q].
  - exists (signals_after c). cbn. rewrite Htr1, <- !app_assoc. reflexivity.
  - destruct (run_tasks_loop_legal fuel c s1) as (new & Hnew & _).
    destruct (run_tasks_loop fuel c s1) as [[] s2|w s2]; cbn in *.
    + exists (new ++ signals_after c). rewrite Hnew, Htr1, <- !app_assoc. reflexivity.
    + exists new. rewrite Hnew, Htr1, <- !app_assoc. reflexivity.
Qed.

(** X6: the run loop serves its queue first in, first out: the first task
    functions [run_tasks] calls are those of the SCHEDULED entries of the
    queue, in queue order, which is the order of submission. *)
Theorem run_tasks_fifo (fuel c : nat) (s : sched) :
  queue_ok s c ->
  1 <= fuel ->
  exists rest,
    called (emitted (run_tasks fuel c) s)
      = List.filter (is_scheduled s) (task_queue s c) ++ rest.
Proof.
  intros Hok Hfuel. destruct fuel as [|fuel]; [lia|].
  destruct (run_tasks_first_walk fuel c s Hok) as (rest & Htr).
  rewrite (emitted_extends _ _ _ Htr), !called_app, called_walk_events.
  rewrite (proj1 (called_signals c)). eauto.
Qed.

(** ** What the run loop does not touch *)

Lemma walk_frame c l :
  forall s, queue_ok s c -> NoDup l -> l ⊆ task_queue s c ->
    next_tid (final (list_for_each_entry_safe run_tasks_body l s)) = next_tid s /\
    forall c', c' <> c -> queue_ok s c' ->
      task_queue (final (list_for_each_entry_safe run_tasks_body l s)) c'
        = task_queue s c'.
Proof.
  induction l as [|p l IH]; intros s Hok Hnd Hsub; [done|].
  apply NoDup_cons in Hnd as [Hpl Hnd].
  assert (Hpq : p ∈ task_queue s c) by (apply Hsub, elem_of_cons; auto).
  assert (Hq : queued_ok s c p).
  { destruct Hok as [_ Hall]. rewrite Forall_forall in Hall. auto. }
  pose proof Hq as Hq'. unfold queued_ok in Hq'.
  destruct (heap s !! p) as [t|] eqn:Hp; [|done]. destruct Hq' as [Hc Hst].
  cbn [list_for_each_entry_safe]. unfold bind.
  rewrite (run_tasks_body_ok s c p t Hp Hc Hst).
  destruct (IH (body_state s p c t)) as [Hn Hqs]; try done.
  - apply queue_ok_body_state; done.
  - intros x Hx. rewrite task_queue_body_state.
    assert (x ∈ task_queue s c) by (apply Hsub, elem_of_cons; auto).
    destruct (task_after t); [done|].
    apply list_elem_of_filter. split; [|done]. intros ->. done.
  - split.
    + rewrite Hn. unfold body_state, destroyed. destruct (task_after t); reflexivity.
    + intros c' Hne Hok'.
      rewrite Hqs by (try done; apply queue_ok_body_state_any; done).
      rewrite task_queue_body_state. destruct (task_after t); [reflexivity|].
      apply filter_Forall_id. destruct Hok' as [_ Hall].
      eapply Forall_impl; [exact Hall|]. intros x Hx ->.
      unfold queued_ok in Hx. rewrite Hp in Hx. destruct Hx as [Hc' _]. congruence.
Qed.

Lemma run_tasks_loop_frame c fuel :
  forall s, queue_ok s c ->
    next_tid (final (run_tasks_loop fuel c s)) = next_tid s /\
    (forall x, x ∉ task_queue s c ->
               heap (final (run_tasks_loop fuel c s)) !! x = heap s !! x) /\
    (forall c', c' <> c -> queue_ok s c' ->
                task_queue (final (run_tasks_loop fuel c s)) c' = task_queue s c').
Proof.
  induction fuel as [|fuel IH]; intros s Hok; [done|].
  destruct (walk_frame c (task_queue s c) s Hok (proj1 Hok)) as [Hn Hqs]; [done|].
  destruct (walk_ok c (task_queue s c) s Hok (proj1 Hok)) as (s1 & Hrun & Hpost);
    [done|].
  rewrite Hrun in Hn, Hqs. cbn [final] in Hn, Hqs.
  destruct Hpost as (Hok1 & Hh & Hq & _).
  assert (Hloop : run_tasks_loop (S fuel) c s =
                  match task_queue s1 c with
                  | [] => Ok tt s1
                  | _ :: _ => run_tasks_loop fuel c s1
                  end).
  { cbn [run_tasks_loop]. unfold bind, get_queue. rewrite Hrun.
    destruct (task_queue s1 c); reflexivity. }
  assert (Hh1 : forall x, x ∉ task_queue s c -> heap s1 !! x = heap s !! x).
  { intros x Hx. rewrite Hh, decide_False by done. reflexivity. }
  rewrite Hloop. destruct (task_queue s1 c) as [|x1 q1] eqn:Hq1; [done|].
  rewrite <- Hq1 in *. clear x1 q1 Hq1.
  destruct (IH s1 Hok1) as (Hn' & Hh' & Hq').
  split_and!.
  - congruence.
  - intros x Hx. rewrite Hh', Hh1; [done | done|].
    rewrite Hq. intros [_ Hin]%list_elem_of_filter. done.
  - intros c' Hne Hok'. rewrite Hq', Hqs; try done.
    pose proof (walk_keeps c c' (task_queue s c) s Hok Hok' (proj1 Hok)) as Hk.
    rewrite Hrun in Hk. apply Hk. done.
Qed.

Lemma run_tasks_loop_queue c fuel :
  forall s, queue_ok s c ->
    task_queue (final (run_tasks_loop fuel c s)) c =
      filter (fun x => is_Some (heap (final (run_tasks_loop fuel c s)) !! x))
             (task_queue s c).
Proof.
  induction fuel as [|fuel IH]; intros s Hok.
  - cbn [run_tasks_loop final halt]. symmetry. apply filter_Forall_id.
    destruct Hok as [_ Hall]. eapply Forall_impl; [exact Hall|].
    intros x. apply queued_ok_live.
  - destruct (loop_step c fuel s Hok) as (s1 & Hpost & Hloop).
    destruct Hpost as (Hok1 & _ & Hq & _).
    rewrite Hloop. destruct (task_queue s1 c) as [|x q] eqn:Hq1.
    + cbn [final]. rewrite Hq1. exact Hq.
    + rewrite <- Hq1 in *. rewrite (IH s1 Hok1), Hq, list_filter_filter.
      apply list_filter_iff. intros y. split; [tauto|]. intros Hy. split; [exact Hy|].
      destruct (heap s1 !! y) eqn:Hy1; [eauto|].
      destruct (run_tasks_loop_shrinks c fuel s1 Hok1) as [_ Hnone].
      rewrite (Hnone y Hy1) in Hy. destruct Hy; discriminate.
Qed.

(** X7: what [run_tasks] itself writes, unlinks and frees is confined to
    the queue of its processor (the task functions it calls being taken,
    as everywhere in this model, to leave the scheduler's state alone).  A
    task object that is not in the queue is left as it is; a well-formed
    queue of another processor keeps its entries; and the queue of the
    processor itself is afterwards what it was without the entries that
    were freed, in the same order. *)
Theorem run_tasks_frame (fuel c : nat) (s : sched) :
  queue_ok s c ->
  (forall x, x ∉ task_queue s c ->
             heap (final (run_tasks fuel c s)) !! x = heap s !! x) /\
  (forall c', c' <> c -> queue_ok s c' ->
              task_queue (final (run_tasks fuel c s)) c' = task_queue s c') /\
  task_queue (final (run_tasks fuel c s)) c =
    filter (fun x => is_Some (heap (final (run_tasks fuel c s)) !! x))
           (task_queue s c).
Proof.
  intros Hok.
  set (s0 := with_trace (trace s ++ signals_before c) s).
  destruct (run_tasks_loop_frame c fuel s0 Hok) as (_ & Hh & Hq).
  pose proof (run_tasks_loop_queue c fuel s0 Hok) as Hown.
  assert (Hf : forall s1 : sched,
             final (run_tasks fuel c s) = s1 ->
             heap s1 = heap (final (run_tasks_loop fuel c s0)) /\
             queues s1 = queues (final (run_tasks_loop fuel c s0))).
  { intros s1 <-. rewrite run_tasks_unfold. fold s0.
    destruct (run_tasks_loop fuel c s0) as [[] s2|w s2]; done. }
  destruct (Hf _ eq_refl) as (Hfh & Hfq).
  split_and!.
  - intros x Hx. rewrite Hfh. apply Hh. exact Hx.
  - intros c' Hne Hok'. unfold task_queue at 1. rewrite Hfq. apply Hq; done.
  - unfold task_queue at 1. rewrite Hfq, Hfh. exact Hown.
Qed.

(** ** When the wait returns *)

Lemma wait_for_task_state_obs_eventually obs p state T :
  (forall n, T <= n -> obs n p = state) ->
  forall fuel clock, T - clock < fuel ->
    exists clock',
      wait_for_task_state_obs obs fuel p state clock = Some clock' /\ clock < clock'.
Proof.
  intros Hobs. induction fuel as [|fuel IH]; intros clock Hf; [lia|].
  cbn [wait_for_task_state_obs].
  destruct (decide (obs clock p = state)) as [Hd|Hd].
  - exists (S clock). split; [reflexivity | lia].
  - assert (clock < T).
    { destruct (decide (T <= clock)) as [Hle|Hle]; [|lia].
      exfalso. apply Hd, Hobs, Hle. }
    destruct (IH (S clock)) as (c' & -> & Hlt); [lia|].
    exists c'. split; [reflexivity | lia].
Qed.

Lemma wait_scan_eventually obs fuel s group T q :
  Forall (fun p => is_Some (heap s !! p)) q ->
  (forall n p, p ∈ q -> in_group s group p = true -> T <= n ->
               obs n p = TASK_STATE_DONE) ->
  forall clock busy seen,
    T - clock < fuel ->
    exists clock' busy' seen',
      wait_scan obs fuel s group q clock busy seen = Some (clock', busy', seen') /\
      clock <= clock' /\
      (busy' = busy \/ (busy' = true /\ clock < T /\ clock < clock')).
Proof.
  induction 1 as [|p q [t Hp] _ IH]; intros Hobs clock busy seen Hf;
    cbn [wait_scan].
  - exists clock, busy, seen. split_and!; auto.
  - assert (Hobs' : forall n x, x ∈ q -> in_group s group x = true -> T <= n ->
                                obs n x = TASK_STATE_DONE).
    { intros n x Hx. apply Hobs, elem_of_cons; auto. }
    rewrite Hp. destruct (in_group s group p) eqn:Hg.
    + destruct (decide (obs clock p = TASK_STATE_DONE)) as [Hd|Hd].
      * destruct (IH Hobs' (S clock) busy (seen ++ [(p, obs clock p)]))
          as (c' & b' & sn' & -> & Hle & Hb); [lia|].
        exists c', b', sn'. split_and!; [reflexivity | lia|].
        destruct Hb as [->|(-> & ? & ?)]; [auto|]. right. split_and!; [done|lia..].
      * assert (clock < T).
        { destruct (decide (T <= clock)) as [Hle|Hle]; [|lia].
          exfalso. apply Hd. apply Hobs; [apply elem_of_cons; auto | done..]. }
        destruct (wait_for_task_state_obs_eventually obs p TASK_STATE_DONE T)
          with (fuel := fuel) (clock := S clock) as (c1 & -> & Hlt); [|lia|].
        { intros n Hn. apply Hobs; [apply elem_of_cons; auto | done..]. }
        destruct (IH Hobs' c1 true (seen ++ [(p, obs clock p)]))
          as (c' & b' & sn' & -> & Hle & Hb); [lia|].
        exists c', b', sn'. split_and!; [reflexivity | lia|].
        right. split_and!; [|lia..]. destruct Hb as [->|(-> & _)]; reflexivity.
    + destruct (IH Hobs' clock busy seen) as (c' & b' & sn' & -> & Hle & Hb); [lia|].
      exists c', b', sn'. split_and!; auto.
Qed.

(** X8: [wait_for_task_group] returns once the tasks it waits for stay
    DONE: if from some read on every entry of the processor's queue that
    matches the group is observed DONE, the wait comes back after finitely
    many reads.  Nothing is asked of the entries of other groups: they may
    stay unfinished for ever. *)
Theorem wait_for_task_group_terminates (obs : nat -> nat -> task_state)
    (s : sched) (cpu : nat) (group : Z) (T clock fuel : nat) :
  Forall (fun p => is_Some (heap s !! p)) (task_queue s cpu) ->
  (forall n p, p ∈ task_queue s cpu -> in_group s group p = true -> T <= n ->
               obs n p = TASK_STATE_DONE) ->
  T - clock < fuel ->
  exists clock' log,
    wait_for_task_group obs fuel s cpu group clock = Some (clock', log) /\
    clock <= clock'.
Proof.
  intros Hlive Hobs. revert clock.
  induction fuel as [|fuel IH]; intros clock Hf; [lia|].
  cbn [wait_for_task_group].
  destruct (wait_scan_eventually obs (S fuel) s group T _ Hlive Hobs clock false [] Hf)
    as (c1 & b1 & seen & -> & Hle & Hb).
  destruct b1.
  - destruct Hb as [?|(_ & Hlt & Hlt')]; [discriminate|].
    destruct (IH c1) as (c2 & log & -> & Hle2); [lia|].
    exists c2, (seen :: log). split; [reflexivity | lia].
  - exists c1, [seen]. split; [reflexivity | lia].
Qed.

Lemma wait_for_task_state_obs_never obs p state :
  (forall n, obs n p <> state) ->
  forall fuel clock, wait_for_task_state_obs obs fuel p state clock = None.
Proof.
  intros Hobs. induction fuel as [|fuel IH]; intros clock; cbn; [reflexivity|].
  rewrite decide_False by apply Hobs. apply IH.
Qed.

Lemma wait_scan_never obs fuel s group p q :
  p ∈ q -> in_group s group p = true ->
  (forall n, obs n p <> TASK_STATE_DONE) ->
  forall clock busy seen, wait_scan obs fuel s group q clock busy seen = None.
Proof.
  intros Hin Hg Hobs. induction q as [|x q IH]; intros clock busy seen.
  - apply elem_of_nil in Hin. done.
  - cbn [wait_scan]. destruct (heap s !! x) as [t|] eqn:Hx; [|reflexivity].
    destruct (decide (x = p)) as [->|Hne].
    + rewrite Hg, decide_False by apply Hobs.
      rewrite wait_for_task_state_obs_never by exact Hobs. reflexivity.
    + assert (Hq : p ∈ q).
      { apply elem_of_cons in Hin as [?|?]; [congruence | done]. }
      destruct (in_group s group x); [|auto].
      destruct (decide _); [auto|].
      destruct (wait_for_task_state_obs _ _ _ _ _); auto.
Qed.

(** X9: [wait_for_task_group] does not return while one of the tasks it
    waits for is never observed DONE: with a queue entry that matches the
    group and never shows DONE, no number of reads brings the wait back. *)
Theorem wait_for_task_group_blocks (obs : nat -> nat -> task_state)
    (s : sched) (cpu : nat) (group : Z) (p : nat) :
  p ∈ task_queue s cpu ->
  in_group s group p = true ->
  (forall n, obs n p <> TASK_STATE_DONE) ->
  forall fuel clock, wait_for_task_group obs fuel s cpu group clock = None.
Proof.
  intros Hin Hg Hobs fuel clock. destruct fuel as [|fuel]; [reflexivity|].
  cbn [wait_for_task_group].
  rewrite (wait_scan_never obs (S fuel) s group p _ Hin Hg Hobs). reflexivity.
Qed.

(** ** Termination of the run loop *)

Lemma run_tasks_loop_queue_sub c fuel :
  forall s, queue_ok s c ->
    task_queue (final (run_tasks_loop fuel c s)) c ⊆ task_queue s c.
Proof.
  induction fuel as [|fuel IH]; intros s Hok; [done|].
  destruct (loop_step c fuel s Hok) as (s1 & Hpost & Hloop).
  destruct Hpost as (Hok1 & _ & Hq & _).
  rewrite Hloop. destruct (task_queue s1 c) as [|x q] eqn:Hq1.
  - cbn [final]. rewrite Hq1. intros y Hy. apply elem_of_nil in Hy. done.
  - rewrite <- Hq1 in *. intros y Hy. apply (IH s1 Hok1) in Hy.
    rewrite Hq in Hy. apply list_elem_of_filter in Hy as [_ Hy]. exact Hy.
Qed.

Lemma run_tasks_loop_out_of_fuel c fuel :
  forall s s', queue_ok s c ->
    run_tasks_loop (S fuel) c s = Stop OutOfFuel s' -> task_queue s' c <> [].
Proof.
  induction fuel as [|fuel IH]; intros s s' Hok Hrun;
    [destruct (loop_step c 0 s Hok) as (s1 & Hpost & Hloop)
    |destruct (loop_step c (S fuel) s Hok) as (s1 & Hpost & Hloop)];
    rewrite Hloop in Hrun; destruct (task_queue s1 c) as [|x q] eqn:Hq1;
    try discriminate.
  - cbn in Hrun. injection Hrun as <-. rewrite Hq1. discriminate.
  - apply (IH s1); [apply Hpost | exact Hrun].
Qed.

(** X10: the run loop comes to an end when every task in the queue has a
    finite policy.  If every entry is SCHEDULED with a repeat value from
    which [kf p] decrements lead to ONCE, then [run_tasks] returns after at
    most [2 * (kf p + 1)] walks for the largest such number; by then every
    entry's function has been called [kf p + 1] times and every entry has
    been freed once. *)
Theorem run_tasks_terminates (fuel c : nat) (s : sched) (kf : nat -> nat) :
  queue_ok s c ->
  1 <= fuel ->
  (forall p, p ∈ task_queue s c ->
     exists t, heap s !! p = Some t /\ t_state t = TASK_STATE_SCHEDULED /\
               countdown (kf p) (t_repeat t) /\ 2 * S (kf p) <= fuel) ->
  exists s',
    run_tasks fuel c s = Ok tt s' /\
    task_queue s' c = [] /\
    forall p, p ∈ task_queue s c ->
      count (is_call p) (emitted (run_tasks fuel c) s) = S (kf p) /\
      count (is_kfree p) (emitted (run_tasks fuel c) s) = 1 /\
      heap s' !! p = None.
Proof.
  intros Hok Hfuel Hall.
  assert (Hlife : forall p, p ∈ task_queue s c ->
            exists t, lifecycle_post s c p t (kf p) (run_tasks fuel c s)).
  { intros p Hin. destruct (Hall p Hin) as (t & Hp & Hst & Hcd & Hf).
    exists t. apply run_tasks_lifecycle; done. }
  assert (Hres : exists s', run_tasks fuel c s = Ok tt s').
  { pose proof (run_tasks_unfold fuel c s) as Hun.
    set (s0 := with_trace (trace s ++ signals_before c) s) in *.
    pose proof (run_tasks_loop_queue_sub c fuel s0 Hok) as Hsub.
    pose proof (run_tasks_loop_keeps c c fuel s0 Hok Hok) as [_ Hgood].
    destruct (run_tasks_loop fuel c s0) as [[] s2|w s2] eqn:Hloop; [eauto|].
    exfalso. destruct w; try done.
    destruct fuel as [|fuel]; [lia|].
    pose proof (run_tasks_loop_out_of_fuel c fuel s0 s2 Hok Hloop) as Hne.
    destruct (task_queue s2 c) as [|x q] eqn:Hq2; [done|].
    assert (Hx : x ∈ task_queue s c).
    { apply Hsub. cbn [final]. rewrite Hq2. apply elem_of_cons. auto. }
    destruct (Hlife x Hx) as (t & _ & _ & _ & Hni & _).
    rewrite Hun in Hni. cbn [final] in Hni. apply Hni. rewrite Hq2.
    apply elem_of_cons. auto. }
  destruct Hres as (s' & Hrun). exists s'. split; [exact Hrun|].
  assert (Hempty : task_queue s' c = []).
  { pose proof Hrun as Hrun'. rewrite run_tasks_unfold in Hrun'.
    destruct (run_tasks_loop fuel c _) as [[] s1|w s1] eqn:Hloop; [|discriminate].
    injection Hrun' as <-.
    apply (run_tasks_loop_returns c fuel
             (with_trace (trace s ++ signals_before c) s) s1 Hok Hloop). }
  split; [exact Hempty|].
  intros p Hin. destruct (Hlife p Hin) as (t & _ & _ & Hgone & _ & _ & _ & new & Htr & Hc & Hk & _).
  rewrite (emitted_extends _ _ _ Htr). rewrite Hrun in Hgone. done.
Qed.

(** ** Reachable states *)

(** X11: applied one after another, each started when the one before has
    ended, the operations open to callers cannot bring the run loop to its
    [BUG()], to a null processor pointer or to a wait that spins: in any
    state that construction, configuration, submission and run loops lead
    to from the initial one in this way, [run_tasks] on any processor
    either returns or is still walking its queue, and leaves every queue
    well-formed.  Operations that overlap on different processors are not
    covered. *)
Theorem api_run_loop_safe (ops : list sched_op) (fuel c : nat) :
  forallb is_api ops = true ->
  good (run_tasks fuel c (exec_ops ops init_tasks)) /\
  forall c', queue_ok (final (run_tasks fuel c (exec_ops ops init_tasks))) c'.
Proof.
  intros Hapi.
  pose proof (queue_ok_reachable ops Hapi init_tasks queue_ok_init) as Hok.
  split.
  - apply (run_tasks_keeps c c); apply Hok.
  - intros c'. apply run_tasks_keeps; apply Hok.
Qed.

(** ** Construction *)

(** X12: [new_task] gives up only when the task object cannot be
    allocated: it returns null exactly when [kzalloc] fails, and then the
    scheduler is as before.  Its clean-up branch is never taken, so
    [new_task] never unlinks or frees anything; the object it returns is a
    new one, READY, and belongs to no processor. *)
Theorem new_task_never_cleans_up (s : sched) (name : string) (func arg type : Z)
    (kzalloc_ok page_ok : bool) :
  exists r s',
    new_task name func arg type kzalloc_ok page_ok s = Ok r s' /\
    (r = None <-> kzalloc_ok = false) /\
    (forall p, (EvKfree p ∉ emitted (new_task name func arg type kzalloc_ok page_ok) s) /\
               (EvListUnlink p ∉ emitted (new_task name func arg type kzalloc_ok page_ok) s)) /\
    queues s' = queues s /\
    (r = None -> heap s' = heap s /\ pages s' = pages s /\ next_tid s' = next_tid s) /\
    (forall p, r = Some p ->
       heap s !! p = None /\
       exists t, heap s' !! p = Some t /\ t_state t = TASK_STATE_READY /\
                 t_cpu t = None /\ t_name t = name /\ t_func t = func /\
                 t_arg t = arg /\ t_type t = type).
Proof.
  destruct kzalloc_ok.
  - exists (Some (fresh (dom (heap s)))), (new_task_state s name func arg type page_ok).
    pose proof (new_task_ok s name func arg type page_ok) as Hrun.
    split; [exact Hrun|]. split; [split; discriminate|].
    split_and!; try done.
    + intros p. erewrite emitted_ok; [|exact Hrun | reflexivity].
      destruct (type =? TASK_TYPE_USER)%Z; cbn;
        split; intros Hin; apply list_elem_of_In in Hin; cbn in Hin;
        intuition discriminate.
    + intros p [= <-]. split; [apply not_elem_of_dom, is_fresh|].
      eexists. split; [apply lookup_insert_eq|]. done.
  - exists None, (with_trace (trace s ++ [EvKzalloc None]) s).
    split; [reflexivity|]. split; [done|].
    split_and!; try done.
    intros p. erewrite emitted_ok; [|apply new_task_fail | destruct s; reflexivity].
    split; intros Hin; apply list_elem_of_In in Hin; cbn in Hin; intuition discriminate.
Qed.

(** ** A submission seen half-way *)

Lemma schedule_task_split s p c :
  schedule_task (Some p) (Some c) s =
    (schedule_task_link p c ;; schedule_task_publish p c) s.
Proof.
  unfold schedule_task, schedule_task_link, schedule_task_publish.
  unfold get_task_state, load, ASSERT, ret, halt, bind.
  destruct (heap s !! p) as [t|]; [|reflexivity].
  destruct (bool_decide (t_state t = TASK_STATE_READY)); [|reflexivity].
  destruct s; cbn. repeat (destruct (_ !! _); cbn); reflexivity.
Qed.

Lemma walk_then_bug c l :
  forall s p t,
    NoDup l -> Forall (queued_ok s c) l -> p ∉ l ->
    heap s !! p = Some t -> t_state t = TASK_STATE_READY ->
    exists s', list_for_each_entry_safe run_tasks_body (l ++ [p]) s = Stop Panic s'.
Proof.
  induction l as [|x l IH]; intros s p t Hnd Hall Hni Hp Hst.
  - exists s. cbn. unfold bind, run_tasks_body, bind, load. rewrite Hp, Hst. reflexivity.
  - apply NoDup_cons in Hnd as [Hxl Hnd].
    apply Forall_cons in Hall as [Hx Hall].
    apply not_elem_of_cons in Hni as [Hpx Hni].
    pose proof Hx as Hx'. unfold queued_ok in Hx'.
    destruct (heap s !! x) as [tx|] eqn:Hhx; [|done]. destruct Hx' as [Hc Hsx].
    cbn [app list_for_each_entry_safe]. unfold bind at 1.
    rewrite (run_tasks_body_ok s c x tx Hhx Hc Hsx).
    apply (IH _ p t); try done.
    + rewrite Forall_forall in *. intros y Hy. specialize (Hall y Hy).
      unfold queued_ok in *. rewrite heap_body_state.
      rewrite decide_False by (intros ->; done). exact Hall.
    + rewrite heap_body_state, decide_False by done. exact Hp.
Qed.

Lemma run_tasks_then_bug fuel c s p t q :
  task_queue s c = q ++ [p] ->
  NoDup q -> Forall (queued_ok s c) q -> p ∉ q ->
  heap s !! p = Some t -> t_state t = TASK_STATE_READY ->
  exists s', run_tasks (S fuel) c s = Stop Panic s'.
Proof.
  intros Hq Hnd Hall Hni Hp Hst. rewrite run_tasks_unfold.
  set (s0 := with_trace (trace s ++ signals_before c) s).
  destruct (walk_then_bug c q s0 p t Hnd Hall Hni Hp Hst) as (s' & Hwalk).
  exists s'. cbn [run_tasks_loop]. unfold bind at 1, get_queue at 1.
  change (task_queue s0 c) with (task_queue s c). rewrite Hq.
  unfold bind at 1. rewrite Hwalk. reflexivity.
Qed.

(** X13: a submission is not atomic for the run loop.  [schedule_task]
    links the task into the queue before it writes [task->cpu] and the
    state SCHEDULED, and [run_tasks] walks the queue without the lock: a
    run loop of the target processor that walks the queue in between,
    after the link or after the write of [task->cpu], finds the READY
    entry at the tail and stops at [BUG()], whatever else the queue
    holds. *)
Theorem schedule_task_window (fuel c p : nat) (s : sched) (t : task) :
  queue_ok s c ->
  heap s !! p = Some t ->
  t_state t = TASK_STATE_READY ->
  schedule_task (Some p) (Some c) s =
    (schedule_task_link p c ;; schedule_task_publish p c) s /\
  exists s1,
    schedule_task_link p c s = Ok tt s1 /\
    task_queue s1 c = task_queue s c ++ [p] /\
    heap s1 = heap s /\
    (exists s2, run_tasks (S fuel) c s1 = Stop Panic s2) /\
    (exists s2, run_tasks (S fuel) c (final (update p (with_cpu (Some c)) s1))
                = Stop Panic s2).
Proof.
  intros Hok Hp Hst. split; [apply schedule_task_split|].
  assert (Hni : p ∉ task_queue s c).
  { intros Hin. destruct Hok as [_ Hall]. rewrite Forall_forall in Hall.
    apply Hall in Hin. unfold queued_ok in Hin. rewrite Hp, Hst in Hin.
    destruct Hin as [_ [?|?]]; discriminate. }
  eexists. split.
  { unfold schedule_task_link, get_task_state, ASSERT, spin_lock, emit,
      list_add_tail, load, ret, bind.
    rewrite Hp. cbn. rewrite Hst, bool_decide_eq_true_2 by done. cbn.
    rewrite Hp. reflexivity. }
  match goal with |- task_queue ?x _ = _ /\ _ => set (s1 := x) end.
  assert (Hq : task_queue s1 c = task_queue s c ++ [p]).
  { unfold task_queue at 1, s1. cbn. rewrite lookup_insert_eq. reflexivity. }
  destruct Hok as [Hnd Hall].
  split_and!; [exact Hq | reflexivity | |].
  - apply (run_tasks_then_bug fuel c s1 p t (task_queue s c)); done.
  - unfold update, bind, load, store. change (heap s1) with (heap s). rewrite Hp.
    cbn [final].
    apply (run_tasks_then_bug fuel c _ p (with_cpu (Some c) t) (task_queue s c));
      try done.
    + eapply Forall_impl; [exact Hall|]. intros x Hx. unfold queued_ok in *. cbn.
      destruct (decide (x = p)) as [->|Hne].
      * rewrite Hp, Hst in Hx. destruct Hx as [_ [?|?]]; discriminate.
      * rewrite lookup_insert_ne by done. exact Hx.
    + cbn. apply lookup_insert_eq.
Qed.

End Properties.

Example sample_once_run :
  trace (final (@run_tasks sample_env 2 0 sample_once)) =
    trace sample_once ++
      [EvCpuSignal 0 Unfinished;
       EvTransition 0 TASK_STATE_SCHEDULED TASK_STATE_RUNNING;
       EvCall 0 5 7;
       EvTransition 0 TASK_STATE_RUNNING TASK_STATE_DONE;
       EvRepeatSwitch 0 0;
       EvFinishedMsg 0 0 12 1;
       EvSpinLock 0; EvListUnlink 0; EvPutPage 0; EvSpinUnlock 0; EvKfree 0;
       EvCpuSignal 0 Finished].
Proof. vm_compute. reflexivity. Qed.

Example sample_repeat3_calls :
  count (is_call 0) (emitted (@run_tasks sample_env 8 0) sample_repeat3) = 4.
Proof. vm_compute. reflexivity. Qed.


(** C1 (counterexample): a task with the finite count 3, neither
    sentinel, scheduled and driven by the run loop of its processor.
    With ONCE = 1 and LOOP = 0 the run loop returns with the task
    destroyed after 3 executions, not 4.  With ONCE = 0 and LOOP = 2 the
    count meets LOOP on its way down: after 20 walks the task has been
    executed 10 times and has not been destroyed. *)
Lemma finite_repeat_runs_counterexample :
  (t_repeat (sample_task sample_times3) = 3%Z /\
   3%Z <> @TASK_REPEAT_ONCE times_env /\ 3%Z <> @TASK_REPEAT_LOOP times_env /\
   t_state (sample_task sample_times3) = TASK_STATE_SCHEDULED /\
   task_queue sample_times3 0 = [0] /\
   (exists s', @run_tasks times_env 8 0 sample_times3 = Ok tt s' /\
               heap s' !! 0 = None) /\
   count (is_call 0) (emitted (@run_tasks times_env 8 0) sample_times3) = 3 /\
   count (is_call 0) (emitted (@run_tasks times_env 8 0) sample_times3)
     <> Z.to_nat 3 + 1) /\
  (t_repeat (sample_task sample_low_loop3) = 3%Z /\
   3%Z <> @TASK_REPEAT_ONCE low_loop_env /\ 3%Z <> @TASK_REPEAT_LOOP low_loop_env /\
   t_state (sample_task sample_low_loop3) = TASK_STATE_SCHEDULED /\
   task_queue sample_low_loop3 0 = [0] /\
   (exists s', @run_tasks low_loop_env 20 0 sample_low_loop3 = Stop OutOfFuel s' /\
               is_Some (heap s' !! 0) /\ task_queue s' 0 = [0]) /\
   count (is_call 0) (emitted (@run_tasks low_loop_env 20 0) sample_low_loop3) = 10 /\
   count (is_kfree 0) (emitted (@run_tasks low_loop_env 20 0) sample_low_loop3) = 0).
Proof.
  split.
  - split; [vm_compute; reflexivity|]. split; [discriminate|].
    split; [discriminate|]. split; [vm_compute; reflexivity|].
    split; [vm_compute; reflexivity|]. split.
    { exists (final (@run_tasks times_env 8 0 sample_times3)).
      split; vm_compute; reflexivity. }
    split; [vm_compute; reflexivity|]. vm_compute. discriminate.
  - split; [vm_compute; reflexivity|]. split; [discriminate|].
    split; [discriminate|]. split; [vm_compute; reflexivity|].
    split; [vm_compute; reflexivity|]. split.
    { exists (final (@run_tasks low_loop_env 20 0 sample_low_loop3)).
      split; [vm_compute; reflexivity|]. split; [|vm_compute; reflexivity].
      apply (bool_decide_unpack _). vm_compute. exact I. }
    split; vm_compute; reflexivity.
Qed.

(** The failing input of C7, run to the end: the unprivileged task is
    entered with a null stack and retired without a page release. *)
Example sample_null_stack_run :
  trace (final (@construct_submit_run sample_env "t" 5 7 1 true false 0 2 init_tasks)) =
    [EvKzalloc (Some 0);
     EvTransition 0 TASK_STATE_NEW TASK_STATE_NEW;
     EvGetPage None;
     EvTransition 0 TASK_STATE_NEW TASK_STATE_READY;
     EvSchedulingMsg 0 0 0; EvSpinLock 0; EvListAddTail 0 0;
     EvTransition 0 TASK_STATE_READY TASK_STATE_SCHEDULED; EvSpinUnlock 0;
     EvCpuSignal 0 Unfinished;
     EvTransition 0 TASK_STATE_SCHEDULED TASK_STATE_RUNNING;
     EvCall 0 5 7;
     EvTransition 0 TASK_STATE_RUNNING TASK_STATE_DONE;
     EvRepeatSwitch 0 0;
     EvFinishedMsg 0 0 12 1;
     EvSpinLock 0; EvListUnlink 0; EvSpinUnlock 0; EvKfree 0;
     EvCpuSignal 0 Finished].
Proof. vm_compute. reflexivity. Qed.

(** ** Instances of the theorems *)

Ltac by_compute :=
  first [ vm_compute; reflexivity
        | apply (bool_decide_unpack _); vm_compute; exact I ].

Lemma finite_repeat_runs_witness :
  count (is_call 0) (emitted (@run_tasks sample_env 8 0) sample_repeat3) = 4 /\
  count (is_kfree 0) (emitted (@run_tasks sample_env 8 0) sample_repeat3) = 1 /\
  heap (final (@run_tasks sample_env 8 0 sample_repeat3)) !! 0 = None /\
  EvPutPage 0 ∈ emitted (@run_tasks sample_env 8 0) sample_repeat3.
Proof.
  destruct (@finite_repeat_runs sample_env 2 0 0 8 sample_repeat3
              (sample_task sample_repeat3))
    as (_ & Hcalls & _ & Hfree & Hgone & _ & Hstack & _); [by_compute..|].
  split; [exact Hcalls|]. split; [exact Hfree|]. split; [exact Hgone|].
  apply (Hstack 0). by_compute.
Defined.

Lemma state_machine_order_witness :
  TASK_STATE_DONE = TASK_STATE_SCHEDULED \/
  state_index TASK_STATE_SCHEDULED = S (state_index TASK_STATE_DONE) \/
  (TASK_STATE_DONE = TASK_STATE_DONE /\ TASK_STATE_SCHEDULED = TASK_STATE_SCHEDULED /\
   exists j r, 14 = S j /\
     drop (length (trace init_tasks))
          (trace (@exec_ops sample_env sample_ops init_tasks)) !! j
       = Some (EvRepeatSwitch 0 r) /\
     r <> @TASK_REPEAT_ONCE sample_env).
Proof.
  apply (@state_machine_order sample_env sample_ops init_tasks 14 0
           TASK_STATE_DONE TASK_STATE_SCHEDULED).
  vm_compute. reflexivity.
Defined.

Lemma wait_for_task_group_returns_witness :
  exists earlier last,
    [[(0, TASK_STATE_RUNNING)]; [(0, TASK_STATE_DONE)]] = earlier ++ [last] /\
    last.*1 = List.filter (@in_group sample_env sample_once 0) (task_queue sample_once 0) /\
    Forall (fun e => e.2 = TASK_STATE_DONE) last /\
    Forall (fun pass =>
              pass.*1 = List.filter (@in_group sample_env sample_once 0)
                                    (task_queue sample_once 0) /\
              Exists (fun e => e.2 <> TASK_STATE_DONE) pass) earlier /\
    (0%Z = @TASK_GROUP_ALL sample_env -> last.*1 = task_queue sample_once 0).
Proof.
  apply (@wait_for_task_group_returns sample_env sample_obs 5 sample_once 0 0 0 4).
  vm_compute. reflexivity.
Defined.

Lemma once_task_retired_witness :
  count (is_call 0) (emitted (@run_tasks sample_env 2 0) sample_once) = 1 /\
  heap (final (@run_tasks sample_env 2 0 sample_once)) !! 0 = None /\
  EvFinishedMsg 0 0 (@task_result sample_env (sample_task sample_once)) 1
    ∈ emitted (@run_tasks sample_env 2 0) sample_once.
Proof.
  destruct (@once_task_retired sample_env 0 0 2 sample_once (sample_task sample_once))
    as (_ & Hcalls & _ & Hgone & _ & _ & Hmsg); [by_compute..|].
  split; [exact Hcalls|]. split; [exact Hgone | exact Hmsg].
Defined.

Lemma running_message_gate_witness :
  ((t_exec_count (sample_task sample_wrapping) + 1) mod COUNT_MODULUS = 0)%Z.
Proof.
  apply (proj1 (@running_message_gate sample_env) sample_wrapping 0
               (sample_task sample_wrapping) 0); by_compute.
Defined.

Lemma schedule_task_spec_witness :
  exists s',
    @schedule_task sample_env (Some 0) (Some 0) sample_ready = Ok 0%Z s' /\
    task_queue s' 0 = task_queue sample_ready 0 ++ [0].
Proof.
  destruct (@schedule_task_spec sample_env sample_ready 0 (sample_task sample_ready))
    as [_ H]; [by_compute..|].
  destruct (H 0) as (s' & Hrun & Hq & _). exists s'. split; [exact Hrun | exact Hq].
Defined.

Lemma prepare_task_always_succeeds_witness :
  exists s',
    @prepare_task sample_env (Some 0) "u" 1 2 1 false sample_ready
      = Ok (@ESUCCESS sample_env) s'.
Proof.
  apply (proj1 (@prepare_task_always_succeeds sample_env) sample_ready 0
               (sample_task sample_ready) "u"%string 1%Z 2%Z 1%Z false);
    by_compute.
Defined.



Ltac by_forall :=
  apply Forall_forall; apply (bool_decide_unpack _); vm_compute; exact I.

Lemma get_task_by_name_first_witness :
  exists r,
    get_task_by_name 0 "u" sample_two = Ok r sample_two /\
    match r with
    | Some p =>
        exists q1 q2,
          task_queue sample_two 0 = q1 ++ p :: q2 /\
          name_of sample_two p = Some "u"%string /\
          forall x, x ∈ q1 -> name_of sample_two x <> Some "u"%string
    | None => forall x, x ∈ task_queue sample_two 0 ->
                        name_of sample_two x <> Some "u"%string
    end.
Proof.
  apply (get_task_by_name_first sample_two 0 "u"%string). by_compute.
Defined.

Lemma get_task_by_name_submitted_witness :
  (task <- @new_task sample_env "u" 6 8 0 true true ;;
   @schedule_task sample_env task (Some 0) ;;
   get_task_by_name 0 "u") sample_once
  = Ok (Some 1) sample_two.
Proof.
  rewrite (@get_task_by_name_submitted sample_env sample_once 0 "u"%string 6%Z 8%Z 0%Z true).
  - vm_compute. reflexivity.
  - by_compute.
  - by_forall.
Defined.

Lemma schedule_task_twice_witness :
  exists s1,
    @schedule_task sample_env (Some 0) (Some 0) sample_ready = Ok 0%Z s1 /\
    (forall c', @schedule_task sample_env (Some 0) (Some c') s1 = Stop Panic s1) /\
    @schedule_task sample_env (Some 0) None s1
      = Ok (- @EEXIST sample_env)%Z (with_trace (trace s1 ++ [EvWarning 0]) s1).
Proof.
  apply (@schedule_task_twice sample_env sample_ready 0 (sample_task sample_ready) 0);
    by_compute.
Defined.

Lemma run_tasks_returns_empty_witness :
  task_queue (final (@run_tasks sample_env 2 0 sample_two)) 0 = [] /\
  heap (final (@run_tasks sample_env 2 0 sample_two)) !! 1 = None.
Proof.
  destruct (@run_tasks_returns_empty sample_env 2 0 sample_two
              (final (@run_tasks sample_env 2 0 sample_two)))
    as (Hq & Hgone & _); [by_compute..|].
  split; [exact Hq|]. apply Hgone. by_compute.
Defined.

Lemma loop_task_runs_forever_witness :
  exists s' t',
    @run_tasks sample_env 5 0 sample_loop = Stop OutOfFuel s' /\
    0 ∈ task_queue s' 0 /\
    heap s' !! 0 = Some t' /\ t_repeat t' = @TASK_REPEAT_LOOP sample_env /\
    count (is_call 0) (emitted (@run_tasks sample_env 5 0) sample_loop) = 3 /\
    count (is_kfree 0) (emitted (@run_tasks sample_env 5 0) sample_loop) = 0.
Proof.
  apply (@loop_task_runs_forever sample_env 5 0 0 sample_loop (sample_task sample_loop));
    by_compute.
Defined.

Lemma run_tasks_fifo_witness :
  exists rest,
    called (emitted (@run_tasks sample_env 2 0) sample_two) = [0; 1] ++ rest.
Proof.
  apply (@run_tasks_fifo sample_env 2 0 sample_two); by_compute.
Defined.

Lemma run_tasks_frame_witness :
  heap (final (@run_tasks sample_env 2 0 sample_three)) !! 2
    = heap sample_three !! 2 /\
  task_queue (final (@run_tasks sample_env 2 0 sample_three)) 1
    = task_queue sample_three 1.
Proof.
  destruct (@run_tasks_frame sample_env 2 0 sample_three) as (Hout & Hother & _);
    [by_compute|].
  split; [apply Hout; by_compute | apply Hother; by_compute].
Defined.

Lemma wait_for_task_group_terminates_witness :
  exists clock' log,
    @wait_for_task_group sample_env sample_obs 3 sample_once 0 0 0 = Some (clock', log) /\
    0 <= clock'.
Proof.
  apply (@wait_for_task_group_terminates sample_env sample_obs sample_once 0 0 2 0 3).
  - by_compute.
  - intros n p _ _ Hn. unfold sample_obs.
    destruct (Nat.ltb_spec n 2); [lia | reflexivity].
  - vm_compute. lia.
Defined.

Lemma wait_for_task_group_blocks_witness :
  @wait_for_task_group sample_env sample_obs_busy 7 sample_once 0 0 0 = None.
Proof.
  apply (@wait_for_task_group_blocks sample_env sample_obs_busy sample_once 0 0 0).
  - by_compute.
  - by_compute.
  - intros n. discriminate.
Defined.

Lemma run_tasks_terminates_witness :
  exists s',
    @run_tasks sample_env 8 0 sample_mixed = Ok tt s' /\
    task_queue s' 0 = [] /\
    forall p, p ∈ task_queue sample_mixed 0 ->
      count (is_call p) (emitted (@run_tasks sample_env 8 0) sample_mixed)
        = S (if decide (p = 0) then 3 else 0) /\
      count (is_kfree p) (emitted (@run_tasks sample_env 8 0) sample_mixed) = 1 /\
      heap s' !! p = None.
Proof.
  apply (@run_tasks_terminates sample_env 8 0 sample_mixed
           (fun p => if decide (p = 0) then 3 else 0)).
  - by_compute.
  - by_compute.
  - apply Forall_forall.
    apply Forall_cons. split.
    { exists (default zero_task (heap sample_mixed !! 0)).
      split_and!; by_compute. }
    apply Forall_cons. split; [|apply Forall_nil_2].
    exists (default zero_task (heap sample_mixed !! 1)).
    split_and!; by_compute.
Defined.

Lemma api_run_loop_safe_witness :
  good (@run_tasks sample_env 2 0 (@exec_ops sample_env sample_ops init_tasks)).
Proof.
  apply (@api_run_loop_safe sample_env sample_ops 2 0). by_compute.
Defined.


Lemma schedule_task_window_witness :
  exists s1,
    schedule_task_link 2 0 sample_pending = Ok tt s1 /\
    task_queue s1 0 = task_queue sample_pending 0 ++ [2] /\
    exists s2, @run_tasks sample_env 1 0 s1 = Stop Panic s2.
Proof.
  destruct (@schedule_task_window sample_env 0 0 2 sample_pending
              (default zero_task (heap sample_pending !! 2)))
    as (_ & s1 & Hlink & Hq & _ & Hbug & _); [by_compute..|].
  exists s1. split; [exact Hlink|]. split; [exact Hq | exact Hbug].
Defined.
